(** * Deep Focus Mode: the background service worker of the browser extension

    A shallow embedding of [browser-extension/src/content/content.js]
    (the part after the document separator, the background service worker):
    the decision cache [blockCache], the per-domain delay windows
    [activeDelays], the toggle [extensionEnabled], the navigation listener,
    [checkBlock], [handleBlockedNavigation], the three redirect helpers,
    [logBlockEvent], [logOverride] and the message, alarm and context-menu
    handlers.
    The overlay of the content script (the first part of the same file) and
    [formatDuration] of the popup are embedded after the worker.

    Conventions of the embedding.
    - Instants ([Date.now()], [new Date()]) are integers in milliseconds.
      Each handler receives the clock readings it takes as arguments; the
      readings of one synchronous run (the router, a message handler) are one
      instant, those on either side of an [await] are separate.
    - The worker is single-threaded; one handler run is one state transition.
      The globals, the two [chrome.storage] areas and the traces of the
      effects the worker performs ([chrome.tabs.update], [fetch],
      [console.error], notifications, badge) are fields of one [State].
    - The answer of a [fetch] is an argument of the handler that may issue it:
      it is consumed only if the call is made, and every call made is appended
      to the [requests] trace.
    - [new URL(s)] is the platform's parser; it is a parameter [parseURL] of the
      development ([None] when the constructor throws). [encodeURIComponent]
      is a parameter in the same way ([None] when it throws [URIError]).
    - [chrome.storage.local] answers asynchronously: a read that has been
      issued waits in [pendingRecords] until storage serves it, and then until
      its callback runs; these are steps of their own, which other handler
      runs may separate. The write a callback issues is taken to land at
      once: storage handles requests in the order issued, so no read issued
      later can miss it.
    - Numbers the authority sends are integers; an absent numeric field is
      [None], which also stands for the [NaN] arithmetic makes of it. *)

From Stdlib Require Import ZArith Lia.
From stdpp Require Import base option list strings gmap pretty.

Local Open Scope string_scope.
Local Open Scope Z_scope.

(** ** JavaScript values and arithmetic *)

Module Js.

Inductive value : Type :=
| undefined
| null
| boolean (b : bool)
| number (n : Z)
| str (s : string).

(** Truthiness as used by [&&], [||], [!] and [if]. *)
Definition truthy (v : value) : bool :=
  match v with
  | undefined | null => false
  | boolean b => b
  | number n => negb (Z.eqb n 0)
  | str s => negb (String.eqb s "")
  end.

(** [Math.ceil(a / b)] for integers [a] and a positive integer [b]. *)
Definition ceil_div (a b : Z) : Z := - ((- a) / b).

(** [m || dflt] for an optional string [m]: absent and empty are falsy. *)
Definition or_default (m : option string) (dflt : string) : string :=
  match m with
  | Some s => if String.eqb s "" then dflt else s
  | None => dflt
  end.

(** Rendering of a number in a template literal. *)
Definition render (n : option Z) : string :=
  match n with
  | Some z => pretty z
  | None => "NaN"
  end.

End Js.

(** ** Data of the worker *)

(** The parts of a parsed [URL] object the worker reads. *)
Record URL : Type := mkURL {
  href : string;
  protocol : string;
  hostname : string
}.

(** The object the authority answers to [POST /api/check-block]. *)
Record Decision : Type := mkDecision {
  should_block : Js.value;
  action : option string;
  delay_seconds : option Z;
  reminder_message : option string;
  remaining_focus_time : option Z
}.

(** What [response.json()] may yield: an object, or a primitive such as
    [null]. *)
Inductive Json : Type :=
| JsonObject (d : Decision)
| JsonPrimitive (v : Js.value).

(** Values of [blockCache]: [{ decision, timestamp }]. *)
Record CacheEntry : Type := mkCacheEntry {
  decision : Json;
  timestamp : Z
}.

(** Values of [activeDelays]: [{ expiresAt }]. *)
Record DelayEntry : Type := mkDelayEntry {
  expiresAt : option Z
}.

(** Entries of the stored [blockEvents] list. *)
Record BlockEvent : Type := mkBlockEvent {
  event_url : string;
  event_action : option string;
  event_timestamp : Z
}.

(** An object answered by [GET /api/status], as far as the worker reads it:
    the truthiness of its [is_actively_coding]. An array counts as an object
    without the property. *)
Record Session : Type := mkSession {
  is_actively_coding : bool
}.

(** What [currentSession] may hold: [null] at start, then whatever JSON value
    the authority answered. *)
Inductive SessionValue : Type :=
| SessionObject (s : Session)
| SessionPrimitive (v : Js.value).

(** Truthiness of [currentSession?.is_actively_coding]: a primitive has no
    such property. *)
Definition activelyCoding (v : SessionValue) : bool :=
  match v with
  | SessionObject s => is_actively_coding s
  | SessionPrimitive _ => false
  end.

(** A [chrome.storage.local.get(['blockEvents'], callback)] under way: the
    event its callback will push, and, once the read has been served, the
    [result.blockEvents] it was served ([None] inside: the key is absent). *)
Record PendingRecord : Type := mkPendingRecord {
  pending_event : BlockEvent;
  pending_result : option (option (list BlockEvent))
}.

(** Calls to the authority. *)
Inductive Request : Type :=
| CheckBlockRequest (url : string)
| OverrideRequest (url : string) (at_time : Z)
| StatusRequest
| RulesRequest
| StatsRequest.

(** Destination of a [chrome.tabs.update], with its query parameters before
    [encodeURIComponent]. *)
Inductive Redirect : Type :=
| BlockedPage (url message : string)
| DelayPage (url : string) (seconds : option Z) (message : string)
| FocusPage (url : string) (minutes : option Z) (message : string).

(** Outcome of a [fetch]: the promise rejects, or a response arrives whose
    [json()] may itself reject ([None]). *)
Inductive FetchResult (A : Type) : Type :=
| FetchRejected
| FetchResponse (ok : bool) (json : option A).
Arguments FetchRejected {A}.
Arguments FetchResponse {A} ok json.

(** How a handler run ends. *)
Inductive Completion : Type :=
| Returned
| Threw.

Record State : Type := mkState {
  (* globals of the service worker *)
  blockCache : gmap string CacheEntry;
  activeDelays : gmap string DelayEntry;
  extensionEnabled : bool;
  currentSession : SessionValue;
  (* chrome.storage.sync *)
  sync_enabled : option bool;
  sync_apiUrl : option string;
  (* chrome.storage.local, and the reads of it whose callbacks have yet to
     run, in the order they were issued *)
  local_blockEvents : option (list BlockEvent);
  pendingRecords : list PendingRecord;
  (* effects, oldest first *)
  tabUpdates : list (Z * Redirect);
  requests : list Request;
  console_errors : list string;
  notifications : list string;
  badgeText : string
}.

Definition API_BASE_URL : string := "http://localhost:5000".
Definition CACHE_DURATION : Z := 30000.

(** Field updates of [State]. *)
Definition set_blockCache (f : gmap string CacheEntry -> gmap string CacheEntry)
    (st : State) : State :=
  mkState (f (blockCache st)) (activeDelays st) (extensionEnabled st)
    (currentSession st) (sync_enabled st) (sync_apiUrl st)
    (local_blockEvents st) (pendingRecords st) (tabUpdates st) (requests st)
    (console_errors st) (notifications st) (badgeText st).

Definition set_activeDelays (f : gmap string DelayEntry -> gmap string DelayEntry)
    (st : State) : State :=
  mkState (blockCache st) (f (activeDelays st)) (extensionEnabled st)
    (currentSession st) (sync_enabled st) (sync_apiUrl st)
    (local_blockEvents st) (pendingRecords st) (tabUpdates st) (requests st)
    (console_errors st) (notifications st) (badgeText st).

Definition set_extensionEnabled (b : bool) (st : State) : State :=
  mkState (blockCache st) (activeDelays st) b (currentSession st)
    (sync_enabled st) (sync_apiUrl st) (local_blockEvents st)
    (pendingRecords st) (tabUpdates st) (requests st) (console_errors st)
    (notifications st) (badgeText st).

Definition set_currentSession (s : SessionValue) (st : State) : State :=
  mkState (blockCache st) (activeDelays st) (extensionEnabled st) s
    (sync_enabled st) (sync_apiUrl st) (local_blockEvents st)
    (pendingRecords st) (tabUpdates st) (requests st) (console_errors st)
    (notifications st) (badgeText st).

Definition set_sync_enabled (b : option bool) (st : State) : State :=
  mkState (blockCache st) (activeDelays st) (extensionEnabled st)
    (currentSession st) b (sync_apiUrl st) (local_blockEvents st)
    (pendingRecords st) (tabUpdates st) (requests st) (console_errors st)
    (notifications st) (badgeText st).

Definition set_sync_apiUrl (u : option string) (st : State) : State :=
  mkState (blockCache st) (activeDelays st) (extensionEnabled st)
    (currentSession st) (sync_enabled st) u (local_blockEvents st)
    (pendingRecords st) (tabUpdates st) (requests st) (console_errors st)
    (notifications st) (badgeText st).

Definition set_local_blockEvents (l : option (list BlockEvent)) (st : State) : State :=
  mkState (blockCache st) (activeDelays st) (extensionEnabled st)
    (currentSession st) (sync_enabled st) (sync_apiUrl st) l
    (pendingRecords st) (tabUpdates st) (requests st) (console_errors st)
    (notifications st) (badgeText st).

Definition set_pendingRecords (l : list PendingRecord) (st : State) : State :=
  mkState (blockCache st) (activeDelays st) (extensionEnabled st)
    (currentSession st) (sync_enabled st) (sync_apiUrl st)
    (local_blockEvents st) l (tabUpdates st) (requests st) (console_errors st)
    (notifications st) (badgeText st).

(** [chrome.tabs.update(tabId, { url })]. *)
Definition tabs_update (tabId : Z) (r : Redirect) (st : State) : State :=
  mkState (blockCache st) (activeDelays st) (extensionEnabled st)
    (currentSession st) (sync_enabled st) (sync_apiUrl st)
    (local_blockEvents st) (pendingRecords st) (tabUpdates st ++ [(tabId, r)])
    (requests st) (console_errors st) (notifications st) (badgeText st).

(** [fetch(...)]: the call is issued. *)
Definition fetch (r : Request) (st : State) : State :=
  mkState (blockCache st) (activeDelays st) (extensionEnabled st)
    (currentSession st) (sync_enabled st) (sync_apiUrl st)
    (local_blockEvents st) (pendingRecords st) (tabUpdates st)
    (requests st ++ [r]) (console_errors st) (notifications st) (badgeText st).

(** [console.error(msg, error)]. *)
Definition console_error (msg : string) (st : State) : State :=
  mkState (blockCache st) (activeDelays st) (extensionEnabled st)
    (currentSession st) (sync_enabled st) (sync_apiUrl st)
    (local_blockEvents st) (pendingRecords st) (tabUpdates st) (requests st)
    (console_errors st ++ [msg]) (notifications st) (badgeText st).

(** [chrome.notifications.create] with the given message. *)
Definition notifications_create (msg : string) (st : State) : State :=
  mkState (blockCache st) (activeDelays st) (extensionEnabled st)
    (currentSession st) (sync_enabled st) (sync_apiUrl st)
    (local_blockEvents st) (pendingRecords st) (tabUpdates st) (requests st)
    (console_errors st) (notifications st ++ [msg]) (badgeText st).

(** [chrome.action.setBadgeText]. *)
Definition setBadgeText (t : string) (st : State) : State :=
  mkState (blockCache st) (activeDelays st) (extensionEnabled st)
    (currentSession st) (sync_enabled st) (sync_apiUrl st)
    (local_blockEvents st) (pendingRecords st) (tabUpdates st) (requests st)
    (console_errors st) (notifications st) t.

(** The stored event list as [logBlockEvent] reads it:
    [result.blockEvents || []]. *)
Definition storedEvents (st : State) : list BlockEvent :=
  default [] (local_blockEvents st).

(** The state of a freshly started worker over the given storage: the
    top-level [const]/[let] declarations run, storage and the effects already
    performed stay. Callbacks the old worker was waiting for are gone with
    it. *)
Definition startWorker (st : State) : State :=
  mkState ∅ ∅ true (SessionPrimitive Js.null) (sync_enabled st) (sync_apiUrl st)
    (local_blockEvents st) [] (tabUpdates st) (requests st) (console_errors st)
    (notifications st) (badgeText st).

(** Empty storage, nothing done yet: the profile before the extension is
    installed. *)
Definition emptyProfile : State :=
  mkState ∅ ∅ true (SessionPrimitive Js.null) None None None [] [] [] [] [] "".

(** ** Redirect helpers

    Each helper builds the address of its page with [encodeURIComponent] on
    the blocked URL and on the message before it calls [chrome.tabs.update].
    [encodeURIComponent] is the platform's function and a parameter here:
    [None] when it throws [URIError], as it does on a string with a lone
    surrogate. A [Redirect] records the parameters before encoding. *)

(** [chrome.tabs.update] with an address built from the two encoded
    parameters; nothing is done if either encoding throws. *)
Definition redirectTo (encodeURIComponent : string -> option string)
    (tabId : Z) (blockedUrl message : string) (page : Redirect)
    (st : State) : Completion * State :=
  match encodeURIComponent blockedUrl, encodeURIComponent message with
  | Some _, Some _ => (Returned, tabs_update tabId page st)
  | _, _ => (Threw, st)
  end.

Definition showBlockPage (encodeURIComponent : string -> option string)
    (tabId : Z) (blockedUrl : string) (message : option string)
    (st : State) : Completion * State :=
  let message := Js.or_default message "This site is blocked during focus time." in
  redirectTo encodeURIComponent tabId blockedUrl message
    (BlockedPage blockedUrl message) st.

Definition showDelayPage (encodeURIComponent : string -> option string)
    (tabId : Z) (blockedUrl : string) (delaySeconds : option Z)
    (message : option string) (st : State) : Completion * State :=
  let message := Js.or_default message "Access will be granted soon." in
  redirectTo encodeURIComponent tabId blockedUrl message
    (DelayPage blockedUrl delaySeconds message) st.

Definition showFocusRequirement (encodeURIComponent : string -> option string)
    (tabId : Z) (blockedUrl : string) (remainingSeconds : option Z)
    (message : option string) (st : State) : Completion * State :=
  let remainingMinutes := (fun s => Js.ceil_div s 60) <$> remainingSeconds in
  let message :=
    Js.or_default message
      ("Focus for " +:+ Js.render remainingMinutes
         +:+ " more minutes to unlock this site.") in
  redirectTo encodeURIComponent tabId blockedUrl message
    (FocusPage blockedUrl remainingMinutes message) st.

(** ** Event log

    [logBlockEvent] builds the event and asks storage for the stored list; it
    returns before the answer arrives. Storage serves the read at some later
    point, and later still the callback runs: it pushes the event onto the
    list it was served, drops the head if the list is now longer than 100,
    and stores the result. Reads and callbacks of several calls may
    interleave. *)

(** [logBlockEvent(url, action)] up to its return. *)
Definition logBlockEvent (url : string) (action : option string) (now : Z)
    (st : State) : State :=
  let event := mkBlockEvent url action now in
  set_pendingRecords
    (pendingRecords st ++ [mkPendingRecord event None])%list st.

(** Storage serves the read of the [i]-th pending record with what it holds
    now. *)
Definition storageRead (i : nat) (st : State) : State :=
  match pendingRecords st !! i with
  | Some (mkPendingRecord event None) =>
      set_pendingRecords
        (<[i := mkPendingRecord event (Some (local_blockEvents st))]>
           (pendingRecords st)) st
  | _ => st
  end.

(** The list the callback stores: [result.blockEvents || []], the event
    pushed, one [shift()] if the length is over 100. *)
Definition pushEvent (result : option (list BlockEvent)) (event : BlockEvent)
    : list BlockEvent :=
  let events := (default [] result ++ [event])%list in
  if bool_decide (100 < length events)%nat then drop 1 events else events.

(** The callback of the [i]-th pending record runs, once its read has been
    served. *)
Definition storageCallback (i : nat) (st : State) : State :=
  match pendingRecords st !! i with
  | Some (mkPendingRecord event (Some result)) =>
      set_local_blockEvents (Some (pushEvent result event))
        (set_pendingRecords (delete i (pendingRecords st)) st)
  | _ => st
  end.

(** A record that runs to completion before anything else happens: the call,
    its read, its callback. *)
Definition recordCompleted (url : string) (action : option string) (now : Z)
    (st : State) : State :=
  let i := length (pendingRecords st) in
  storageCallback i (storageRead i (logBlockEvent url action now st)).

(** [logOverride]: fire-and-forget [POST /api/override]; only a rejected
    promise reaches the [catch], which logs and swallows it. *)
Definition logOverride (url : string) (now : Z) (net : FetchResult unit)
    (st : State) : State :=
  let st := fetch (OverrideRequest url now) st in
  match net with
  | FetchRejected => console_error "Failed to log override:" st
  | FetchResponse _ _ => st
  end.

(** [updateBadge]. *)
Definition updateBadge (isActive : bool) (st : State) : State :=
  if isActive then setBadgeText "ON" st else setBadgeText "" st.

(** ** Decision cache and authority client *)

(** The guard of [checkBlock]:
    [cached && Date.now() - cached.timestamp < CACHE_DURATION]. *)
Definition cacheHit (url : string) (now : Z) (st : State) : option Json :=
  match blockCache st !! url with
  | Some cached =>
      if bool_decide (now - timestamp cached < CACHE_DURATION)
      then Some (decision cached) else None
  | None => None
  end.

(** The [catch] of [checkBlock]. *)
Definition checkBlock_catch (st : State) : Json * State :=
  (JsonPrimitive Js.null, console_error "Failed to check block status:" st).

(** [checkBlock(url)]. [now] is the clock at the cache test, [net] what the
    authority answers if asked, [now_resp] the clock when the answer is
    stored. *)
Definition checkBlock (url : string) (now : Z) (net : FetchResult Json)
    (now_resp : Z) (st : State) : Json * State :=
  match cacheHit url now st with
  | Some d => (d, st)
  | None =>
      let st := fetch (CheckBlockRequest url) st in
      match net with
      | FetchRejected => checkBlock_catch st
      | FetchResponse false _ => checkBlock_catch st
      | FetchResponse true None => checkBlock_catch st
      | FetchResponse true (Some d) =>
          (d, set_blockCache (insert url (mkCacheEntry d now_resp)) st)
      end
  end.

(** The authority call failed: the promise rejected, the status was not a
    success, or the body was not JSON. *)
Definition authorityFailed (net : FetchResult Json) : bool :=
  match net with
  | FetchResponse true (Some _) => false
  | _ => true
  end.

(** ** Delay tracker *)

(** The guard of the [delay] case:
    [existingDelay && Date.now() < existingDelay.expiresAt]; the expiry of the
    window still open, if there is one. A [NaN] expiry compares false. *)
Definition stillDelayed (delayKey : string) (now : Z) (st : State) : option Z :=
  match activeDelays st !! delayKey ≫= expiresAt with
  | Some e => if bool_decide (now < e) then Some e else None
  | None => None
  end.

(** ** Handlers *)

(** The [details] of a [webNavigation.onBeforeNavigate] event. *)
Record NavigationDetails : Type := mkDetails {
  frameId : Z;
  tabId : Z;
  url : string
}.

(** The clock readings of one navigation: at the cache test, when the
    authority's answer is stored, and when the router runs. *)
Record Clock : Type := mkClock {
  at_lookup : Z;
  at_store : Z;
  at_enforce : Z
}.

(** Messages of [chrome.runtime.onMessage], by [request.action]. *)
Inductive Message : Type :=
| getStatus
| toggleExtension
| overrideBlock (url : string)
| getRules
| getStats
| otherMessage.

(** Arguments of [sendResponse]. *)
Inductive Response : Type :=
| StatusResponse (enabled : bool) (session : SessionValue)
| EnabledResponse (enabled : bool)
| SuccessResponse.

Section Background.

(** [new URL(s)]; [None] when the constructor throws. *)
Variable parseURL : string -> option URL.

(** [encodeURIComponent(s)]; [None] when it throws [URIError]. *)
Variable encodeURIComponent : string -> option string.

(** Both parameters of a redirect can be encoded. *)
Definition encodes (blockedUrl message : string) : Prop :=
  is_Some (encodeURIComponent blockedUrl) /\
  is_Some (encodeURIComponent message).

(** The message of the page a decision leads to, if its action has one. *)
Definition pageMessage (d : Decision) : option string :=
  if decide (action d = Some "block") then
    Some (Js.or_default (reminder_message d)
            "This site is blocked during focus time.")
  else if decide (action d = Some "delay") then
    Some (Js.or_default (reminder_message d) "Access will be granted soon.")
  else if decide (action d = Some "conditional") then
    Some (Js.or_default (reminder_message d)
            ("Focus for "
               +:+ Js.render ((fun s => Js.ceil_div s 60) <$> remaining_focus_time d)
               +:+ " more minutes to unlock this site."))
  else None.

(** The redirect a decision asks for can be built. *)
Definition redirectEncodes (url : string) (d : Decision) : Prop :=
  forall m, pageMessage d = Some m -> encodes url m.

(** The end of [handleBlockedNavigation]: [logBlockEvent(url, action)], which
    is reached only if the [switch] before it did not throw. *)
Definition thenLog (shown : Completion * State) (url : string)
    (action : option string) (now : Z) : Completion * State :=
  match shown with
  | (Returned, st) => (Returned, logBlockEvent url action now st)
  | (Threw, st) => (Threw, st)
  end.

(** [handleBlockedNavigation(tabId, url, decision)] at clock [now]. In the
    [delay] case [new URL(url)] may throw, before anything is changed; a
    redirect helper may throw, in the [delay] case after a new window has
    been recorded. *)
Definition handleBlockedNavigation (tabId : Z) (url : string) (d : Decision)
    (now : Z) (st : State) : Completion * State :=
  if decide (action d = Some "block") then
    thenLog (showBlockPage encodeURIComponent tabId url (reminder_message d) st)
      url (action d) now
  else if decide (action d = Some "delay") then
    match parseURL url with
    | None => (Threw, st)
    | Some u =>
        let delayKey := hostname u in
        let shown :=
          match stillDelayed delayKey now st with
          | Some e =>
              let remainingSeconds := Js.ceil_div (e - now) 1000 in
              showDelayPage encodeURIComponent tabId url (Some remainingSeconds)
                (reminder_message d) st
          | None =>
              let st :=
                set_activeDelays
                  (insert delayKey
                     (mkDelayEntry ((fun s => now + s * 1000) <$> delay_seconds d)))
                  st in
              showDelayPage encodeURIComponent tabId url (delay_seconds d)
                (reminder_message d) st
          end in
        thenLog shown url (action d) now
    end
  else if decide (action d = Some "conditional") then
    thenLog
      (showFocusRequirement encodeURIComponent tabId url (remaining_focus_time d)
         (reminder_message d) st)
      url (action d) now
  else
    (Returned, logBlockEvent url (action d) now st).

(** The end of the listener, once [checkBlock] has answered:
    [if (decision && decision.should_block) handleBlockedNavigation(...)].
    A property read of a primitive yields [undefined]. *)
Definition enforceDecision (tabId : Z) (url : string) (decision : Json)
    (now : Z) (st : State) : Completion * State :=
  match decision with
  | JsonObject d =>
      if Js.truthy (should_block d)
      then handleBlockedNavigation tabId url d now st
      else (Returned, st)
  | JsonPrimitive _ => (Returned, st)
  end.

(** The listener of [webNavigation.onBeforeNavigate]. *)
Definition onBeforeNavigate (details : NavigationDetails) (clock : Clock)
    (net : FetchResult Json) (st : State) : Completion * State :=
  if negb (Z.eqb (frameId details) 0) || negb (extensionEnabled st) then
    (Returned, st)
  else
    match parseURL (url details) with
    | None => (Threw, st)
    | Some u =>
        let domain := hostname u in
        if String.eqb domain "localhost" || String.eqb domain "127.0.0.1"
           || String.eqb (protocol u) "chrome-extension:" then
          (Returned, st)
        else
          let '(decision, st) :=
            checkBlock (href u) (at_lookup clock) net (at_store clock) st in
          enforceDecision (tabId details) (href u) decision (at_enforce clock) st
    end.

(** A navigation the listener does not filter out: main frame, toggle on,
    a target that parses, not a loopback host or an extension page. *)
Definition qualifies (details : NavigationDetails) (st : State) (u : URL) : Prop :=
  frameId details = 0 /\ extensionEnabled st = true /\
  parseURL (url details) = Some u /\
  hostname u <> "localhost" /\ hostname u <> "127.0.0.1" /\
  protocol u <> "chrome-extension:".

(** The event filter [{ url: [{ schemes: ['http', 'https'] }] }] the listener
    is registered with. *)
Definition schemeFilter (details : NavigationDetails) : bool :=
  match parseURL (url details) with
  | Some u => String.eqb (protocol u) "http:" || String.eqb (protocol u) "https:"
  | None => false
  end.

(** A pre-navigation event as the browser delivers it. *)
Definition beforeNavigate (details : NavigationDetails) (clock : Clock)
    (net : FetchResult Json) (st : State) : Completion * State :=
  if schemeFilter details then onBeforeNavigate details clock net st
  else (Returned, st).

(** The [fetchRules]/[fetchStats] pattern: the call, with every failure
    logged and swallowed. *)
Definition fetchQuietly (r : Request) (msg : string) (net : FetchResult unit)
    (st : State) : State :=
  let st := fetch r st in
  match net with
  | FetchRejected => console_error msg st
  | FetchResponse true None => console_error msg st
  | FetchResponse _ _ => st
  end.

(** The listener of [chrome.runtime.onMessage]: the final state and what is
    passed to [sendResponse] before the listener returns. *)
Definition onMessage (request : Message) (now : Z) (net : FetchResult unit)
    (st : State) : Completion * State * option Response :=
  match request with
  | getStatus =>
      (Returned, st, Some (StatusResponse (extensionEnabled st) (currentSession st)))
  | toggleExtension =>
      let st := set_extensionEnabled (negb (extensionEnabled st)) st in
      let st := set_sync_enabled (Some (extensionEnabled st)) st in
      (Returned, st, Some (EnabledResponse (extensionEnabled st)))
  | overrideBlock url =>
      match parseURL url with
      | None => (Threw, st, None)
      | Some u =>
          let domain := hostname u in
          let st := set_activeDelays (delete domain) st in
          let st := set_blockCache (delete url) st in
          let st := logOverride url now net st in
          (Returned, st, Some SuccessResponse)
      end
  | getRules => (Returned, fetchQuietly RulesRequest "Failed to fetch rules:" net st, None)
  | getStats => (Returned, fetchQuietly StatsRequest "Failed to fetch stats:" net st, None)
  | otherMessage => (Returned, st, None)
  end.

(** The listener of [chrome.runtime.onInstalled] (install and update): the
    default settings. Creating the context menu and starting the poller do
    not touch the state modelled here. *)
Definition onInstalled (st : State) : State :=
  let st :=
    if negb (default false (sync_enabled st))
    then set_sync_enabled (Some true) st else st in
  if String.eqb (default "" (sync_apiUrl st)) ""
  then set_sync_apiUrl (Some API_BASE_URL) st else st.

(** One tick of the poller started by [startMonitoring]. The body is
    assigned to [currentSession] before [is_actively_coding] is read from it;
    that read throws into the [catch] when the body is [null]. *)
Definition statusTick (net : FetchResult SessionValue) (st : State) : State :=
  let st := fetch StatusRequest st in
  match net with
  | FetchRejected => console_error "Failed to get session status:" st
  | FetchResponse true (Some body) =>
      let st := set_currentSession body st in
      match body with
      | SessionPrimitive Js.null | SessionPrimitive Js.undefined =>
          console_error "Failed to get session status:" st
      | _ => updateBadge (activelyCoding body) st
      end
  | FetchResponse true None => console_error "Failed to get session status:" st
  | FetchResponse false _ => st
  end.

(** The listener of [chrome.alarms.onAlarm]. *)
Definition onAlarm (name : string) (st : State) : State :=
  if String.prefix "delay-" name then
    let domain := String.substring 6 (String.length name - 6) name in
    notifications_create (domain +:+ " is now accessible.")
      (set_activeDelays (delete domain) st)
  else st.

(** The listener of [chrome.contextMenus.onClicked]. *)
Definition onContextMenu (menuItemId : string) (st : State) : State :=
  if String.eqb menuItemId "toggle-focus-mode" then
    let st := set_extensionEnabled (negb (extensionEnabled st)) st in
    let st := set_sync_enabled (Some (extensionEnabled st)) st in
    updateBadge (extensionEnabled st && activelyCoding (currentSession st)) st
  else st.

End Background.

(** ** A parser for examples

    [simpleURL] reads [http://host/path] and [https://host/path] the way
    [new URL] does when the string is already in serialised form (lower-case
    scheme and host, no credentials or port, a path present); it is used only
    to run the handlers on concrete navigations. *)

Fixpoint hostPart (s : string) : string :=
  match s with
  | EmptyString => EmptyString
  | String c rest =>
      if Ascii.eqb c (Ascii.ascii_of_nat 47) then EmptyString else String c (hostPart rest)
  end.

Definition simpleURL (s : string) : option URL :=
  if String.prefix "https://" s then
    Some (mkURL s "https:" (hostPart (String.substring 8 (String.length s - 8) s)))
  else if String.prefix "http://" s then
    Some (mkURL s "http:" (hostPart (String.substring 7 (String.length s - 7) s)))
  else None.

(** An encoder for examples: [loneSurrogate] stands for a string holding a
    lone surrogate, on which [encodeURIComponent] throws; every other string
    is taken as encodable. Redirects record their parameters before encoding,
    so the escaped text itself is not needed. *)
Definition loneSurrogate : string :=
  String (Ascii.ascii_of_nat 237)
    (String (Ascii.ascii_of_nat 160) (String (Ascii.ascii_of_nat 128) EmptyString)).

Definition simpleEncode (s : string) : option string :=
  if String.eqb s loneSurrogate then None else Some s.

(** Storage catches up: each pending record in turn has its read served and
    its callback run. *)
Fixpoint settleRecords (n : nat) (st : State) : State :=
  match n with
  | O => st
  | S n => settleRecords n (storageCallback 0 (storageRead 0 st))
  end.

Definition settle (st : State) : State :=
  settleRecords (length (pendingRecords st)) st.

(** ** Concrete runs

    States and inputs used to run the handlers: a fresh install, navigations
    to [https://reddit.com/] in tab 7, and a few authority answers. *)

Definition reddit : string := "https://reddit.com/".

Definition redditURL : URL := mkURL reddit "https:" "reddit.com".

Definition toReddit : NavigationDetails := mkDetails 0 7 reddit.

Definition installed : State := onInstalled (startWorker emptyProfile).

Definition delay300 : Decision :=
  mkDecision (Js.boolean true) (Some "delay") (Some 300) (Some "Stay focused") None.

Definition delay10 : Decision :=
  mkDecision (Js.boolean true) (Some "delay") (Some 10) None None.

Definition delay0 : Decision :=
  mkDecision (Js.boolean true) (Some "delay") (Some 0) None None.

Definition blockNow : Decision :=
  mkDecision (Js.boolean true) (Some "block") None (Some "Stay focused") None.

Definition blockUnencodable : Decision :=
  mkDecision (Js.boolean true) (Some "block") None (Some loneSurrogate) None.

Definition blockNotFlagged : Decision :=
  mkDecision (Js.boolean false) (Some "block") None (Some "Stay focused") None.


Definition warnOnly : Decision :=
  mkDecision (Js.boolean true) (Some "warn") None None None.

Definition answer (d : Decision) : FetchResult Json :=
  FetchResponse true (Some (JsonObject d)).


(** The same with a 10 second delay, the answer cached at clock 5 and the
    window opened at clock 6: it runs to 10006. *)
Definition delayed10 : State :=
  settle
    (beforeNavigate simpleURL simpleEncode toReddit (mkClock 0 5 6)
       (answer delay10) installed).2.

(** 101 [logBlockEvent] calls, at clocks 0 to 100; a call is the target, the
    action and the clock. *)
Definition calls101 : list (string * option string * Z) :=
  (fun t => (reddit, Some "block", t)) <$> seqZ 0 101.

(** The event a call records. *)
Definition eventOf (c : string * option string * Z) : BlockEvent :=
  mkBlockEvent c.1.1 c.1.2 c.2.

(** A run of calls, oldest first, whose records do not overlap: each
    completes before the next is issued. *)
Definition recordAll (calls : list (string * option string * Z)) (st : State) : State :=
  foldl (fun st c => recordCompleted c.1.1 c.1.2 c.2 st) st calls.

(** Every list in storage or already served to a callback is within the
    bound. *)
Definition logWithin (st : State) : Prop :=
  (length (storedEvents st) <= 100)%nat /\
  forall p r, p ∈ pendingRecords st -> pending_result p = Some r ->
    (length (default [] r) <= 100)%nat.

(** ** The worker as an event loop

    The events the browser delivers to the listeners the worker registers,
    and the two steps storage takes for a pending record. An install or
    update runs [onInstalled] in a worker started for it. *)

Inductive Event : Type :=
| Navigation (details : NavigationDetails) (clock : Clock) (net : FetchResult Json)
| MessageReceived (request : Message) (now : Z) (net : FetchResult unit)
| AlarmFired (name : string)
| MenuClicked (menuItemId : string)
| StatusPolled (net : FetchResult SessionValue)
| StorageReadServed (i : nat)
| StorageCallbackRun (i : nat)
| InstalledOrUpdated
| WorkerStarted.

Definition handle (parseURL : string -> option URL)
    (encodeURIComponent : string -> option string) (e : Event) (st : State) : State :=
  match e with
  | Navigation details clock net =>
      (beforeNavigate parseURL encodeURIComponent details clock net st).2
  | MessageReceived request now net => (onMessage parseURL request now net st).1.2
  | AlarmFired name => onAlarm name st
  | MenuClicked menuItemId => onContextMenu menuItemId st
  | StatusPolled net => statusTick net st
  | StorageReadServed i => storageRead i st
  | StorageCallbackRun i => storageCallback i st
  | InstalledOrUpdated => onInstalled (startWorker st)
  | WorkerStarted => startWorker st
  end.

Definition run (parseURL : string -> option URL)
    (encodeURIComponent : string -> option string) (events : list Event)
    (st : State) : State :=
  foldl (fun st e => handle parseURL encodeURIComponent e st) st events.

(** ** The content script

    The first part of [content.js]: the blocking overlay of a page with its
    countdown. The page's state is the script's two variables, what the
    script has attached to [document.body], and its timers. The content of
    an overlay is recorded with the parts that vary (message, countdown,
    focus box, override button); logo, title, back button and tips are
    always there. Timer ids are the positive integers [setInterval] hands
    out. *)

Module Content.

(** The [options] argument of [createOverlay]; an absent field is
    [undefined]. *)
Record Options : Type := mkOptions {
  countdown : option Z;
  focusMinutes : option Z;
  allowOverride : bool
}.

(** [options = {}]. *)
Definition noOptions : Options := mkOptions None None false.

(** The [options] argument as it arrives: missing, [null], or a value (one
    that is not an object has none of the three properties). The default
    parameter replaces a missing argument only. *)
Inductive OptionsArg : Type :=
| optionsUndefined
| optionsNull
| optionsGiven (options : Options).

(** Truthiness of an optional number. *)
Definition given (n : option Z) : bool :=
  match n with
  | Some z => negb (Z.eqb z 0)
  | None => false
  end.

(** What the countdown element shows. *)
Inductive View : Type :=
| Blank
| Running (minutes secs : Z)
| Granted.

(** The closure of one [startCountdown] call: its [seconds], its
    [remaining], and the content of its [element]. *)
Record Countdown : Type := mkCountdown {
  seconds : Z;
  remaining : Z;
  view : View
}.

(** The [content] box of an overlay, by its variable parts. [countdownEl]
    names the closure that draws into it. *)
Record OverlayContent : Type := mkContent {
  message : string;
  countdownEl : option nat;
  focusEl : option Z;
  overrideBtn : bool
}.

(** An overlay element: its identity and the content appended to it, which
    [createOverlay] does last; until then the element is an empty [div]. *)
Record Overlay : Type := mkOverlay {
  element : nat;
  content : option OverlayContent
}.

Record Page : Type := mkPage {
  overlayElement : option Overlay;
  countdownInterval : option nat;
  bodyOverlays : list Overlay;
  bodyOverflow : string;
  closures : gmap nat Countdown;
  activeIntervals : gset nat;
  nextTimer : nat;
  created : nat;
  pendingReloads : nat;
  reloads : nat
}.

(** The page as the script finds it; [overflow] is the page's own. *)
Definition initialPage (overflow : string) : Page :=
  mkPage None None [] overflow ∅ ∅ 1 0 0 0.

(** [clearInterval(countdownInterval)]. *)
Definition clearCountdownInterval (p : Page) : Page :=
  match countdownInterval p with
  | Some id =>
      mkPage (overlayElement p) (countdownInterval p) (bodyOverlays p)
        (bodyOverflow p) (closures p) (activeIntervals p ∖ {[id]})
        (nextTimer p) (created p) (pendingReloads p) (reloads p)
  | None => p
  end.

(** [removeOverlay()]. *)
Definition removeOverlay (p : Page) : Page :=
  let p :=
    match overlayElement p with
    | Some o =>
        mkPage None (countdownInterval p)
          (filter (fun o' => element o' <> element o) (bodyOverlays p))
          "" (closures p) (activeIntervals p) (nextTimer p) (created p)
          (pendingReloads p) (reloads p)
    | None => p
    end in
  match countdownInterval p with
  | Some _ =>
      let p := clearCountdownInterval p in
      mkPage (overlayElement p) None (bodyOverlays p) (bodyOverflow p)
        (closures p) (activeIntervals p) (nextTimer p) (created p)
        (pendingReloads p) (reloads p)
  | None => p
  end.

(** [updateCountdown()] of the closure [k]. *)
Definition updateCountdown (k : nat) (p : Page) : Page :=
  match closures p !! k with
  | None => p
  | Some c =>
      if bool_decide (remaining c <= 0) then
        let p := clearCountdownInterval p in
        mkPage (overlayElement p) (countdownInterval p) (bodyOverlays p)
          (bodyOverflow p)
          (<[k := mkCountdown (seconds c) (remaining c) Granted]> (closures p))
          (activeIntervals p) (nextTimer p) (created p)
          (S (pendingReloads p)) (reloads p)
      else
        let minutes := remaining c / 60 in
        let secs := Z.rem (remaining c) 60 in
        mkPage (overlayElement p) (countdownInterval p) (bodyOverlays p)
          (bodyOverflow p)
          (<[k := mkCountdown (seconds c) (remaining c - 1) (Running minutes secs)]>
             (closures p))
          (activeIntervals p) (nextTimer p) (created p)
          (pendingReloads p) (reloads p)
  end.

(** [startCountdown(seconds, element)]: a new closure, one update at once,
    then the interval. *)
Definition startCountdown (seconds : Z) (p : Page) : Page :=
  let k := nextTimer p in
  let p :=
    mkPage (overlayElement p) (countdownInterval p) (bodyOverlays p)
      (bodyOverflow p) (<[k := mkCountdown seconds seconds Blank]> (closures p))
      (activeIntervals p) (nextTimer p) (created p) (pendingReloads p)
      (reloads p) in
  let p := updateCountdown k p in
  mkPage (overlayElement p) (Some k) (bodyOverlays p) (bodyOverflow p)
    (closures p) (activeIntervals p ∪ {[k]}) (S k) (created p)
    (pendingReloads p) (reloads p).

(** [createOverlay(message, options)]. With [options] [null] the read of
    [options.countdown] throws: by then the old overlay is removed and the
    new element is in [overlayElement], but it is still empty and not
    attached. *)
Definition createOverlay (message : string) (options : OptionsArg) (p : Page)
    : Completion * Page :=
  let p := removeOverlay p in
  match options with
  | optionsNull =>
      (Threw,
       mkPage (Some (mkOverlay (created p) None))
         (countdownInterval p) (bodyOverlays p) (bodyOverflow p) (closures p)
         (activeIntervals p) (nextTimer p) (S (created p)) (pendingReloads p)
         (reloads p))
  | optionsUndefined | optionsGiven _ =>
      let options :=
        match options with optionsGiven o => o | _ => noOptions end in
      let countdownEl :=
        if given (countdown options) then Some (nextTimer p) else None in
      let p :=
        if given (countdown options)
        then startCountdown (default 0 (countdown options)) p else p in
      let focusEl :=
        if given (focusMinutes options) then focusMinutes options else None in
      let o :=
        mkOverlay (created p)
          (Some (mkContent message countdownEl focusEl (allowOverride options))) in
      (Returned,
       mkPage (Some o) (countdownInterval p) (bodyOverlays p ++ [o]) "hidden"
         (closures p) (activeIntervals p) (nextTimer p) (S (created p))
         (pendingReloads p) (reloads p))
  end.

(** The interval of closure [k] fires, if it is still set. *)
Definition intervalFires (k : nat) (p : Page) : Page :=
  if bool_decide (k ∈ activeIntervals p) then updateCountdown k p else p.

(** [removeOverlay(); window.location.reload()]. *)
Definition removeAndReload (p : Page) : Page :=
  let p := removeOverlay p in
  mkPage (overlayElement p) (countdownInterval p) (bodyOverlays p)
    (bodyOverflow p) (closures p) (activeIntervals p) (nextTimer p) (created p)
    (pendingReloads p) (S (reloads p)).

(** A one second timeout set by a finished countdown fires. *)
Definition reloadTimeoutFires (p : Page) : Page :=
  match pendingReloads p with
  | O => p
  | S n =>
      removeAndReload
        (mkPage (overlayElement p) (countdownInterval p) (bodyOverlays p)
           (bodyOverflow p) (closures p) (activeIntervals p) (nextTimer p)
           (created p) n (reloads p))
  end.

(** Messages from the background script, by [request.action]. *)
Inductive Request : Type :=
| showOverlay (message : string) (options : OptionsArg)
| removeOverlayRequest
| checkOverlay
| otherRequest.

Inductive Reply : Type :=
| Success
| HasOverlay (hasOverlay : bool).

(** The listener of [chrome.runtime.onMessage] in the page: the page
    afterwards and what was passed to [sendResponse], nothing if
    [createOverlay] threw. *)
Definition listener (request : Request) (p : Page) : Page * option Reply :=
  match request with
  | showOverlay message options =>
      match createOverlay message options p with
      | (Returned, p) => (p, Some Success)
      | (Threw, p) => (p, None)
      end
  | removeOverlayRequest => (removeOverlay p, Some Success)
  | checkOverlay => (p, Some (HasOverlay (bool_decide (is_Some (overlayElement p)))))
  | otherRequest => (p, None)
  end.

(** What can happen in the page. *)
Inductive PageEvent : Type :=
| Received (request : Request)
| IntervalFired (k : nat)
| ReloadTimeoutFired.

Definition step (e : PageEvent) (p : Page) : Page :=
  match e with
  | Received request => (listener request p).1
  | IntervalFired k => intervalFires k p
  | ReloadTimeoutFired => reloadTimeoutFires p
  end.

Definition run (events : list PageEvent) (p : Page) : Page :=
  foldl (fun p e => step e p) p events.

(** The page is tidy: the body holds no overlay but the one the script
    tracks, scrolling is off while one is attached, and no interval runs but
    the one in [countdownInterval]. *)
Definition tidy (p : Page) : Prop :=
  (bodyOverlays p = [] \/ bodyOverlays p = option_list (overlayElement p)) /\
  (bodyOverlays p <> [] -> bodyOverflow p = "hidden") /\
  (forall k, k ∈ activeIntervals p -> countdownInterval p = Some k).


(** The callback of [handleOverride]:
    [if (response && response.success) { removeOverlay(); reload() }]. *)
Definition overrideAnswered (response : option Response) (p : Page) : Page :=
  match response with
  | Some SuccessResponse => removeAndReload p
  | _ => p
  end.

End Content.

(** [handleOverride()] in a page at [href], with the user's answer to the
    confirmation, run against the worker. *)
Definition handleOverride (parseURL : string -> option URL) (confirmed : bool)
    (href : string) (now : Z) (net : FetchResult unit)
    (st : State) (p : Content.Page) : State * Content.Page :=
  if confirmed then
    let r := onMessage parseURL (overrideBlock href) now net st in
    (r.1.2, Content.overrideAnswered r.2 p)
  else (st, p).

(** ** The popup: [formatDuration] *)

(** [Number.MAX_SAFE_INTEGER], 2^53 - 1. *)
Definition MAX_SAFE_INTEGER : Z := 9007199254740991.

(** [s.padStart(2, '0')]. *)
Definition padStart2 (s : string) : string :=
  match String.length s with
  | O => "00"
  | S O => "0" +:+ s
  | _ => s
  end.

(** [formatDuration(minutes)] for a whole number of minutes that a double
    holds exactly, up to [MAX_SAFE_INTEGER] either way: there the division
    by 60 rounds to a double with the same floor, the remainder is exact and
    numbers print as their digits. Beyond that the source computes on
    rounded doubles, which is not modelled ([None]). *)
Definition formatDuration (minutes : Z) : option string :=
  if bool_decide (- MAX_SAFE_INTEGER <= minutes <= MAX_SAFE_INTEGER) then
    let hours := minutes / 60 in
    let mins := Z.rem minutes 60 in
    Some (if bool_decide (0 < hours)
          then pretty hours +:+ ":" +:+ padStart2 (pretty mins)
          else pretty mins +:+ " min")
  else None.

(** Every cached target has been put to the authority. *)
Definition cacheAsked (st : State) : Prop :=
  forall url c, blockCache st !! url = Some c -> CheckBlockRequest url ∈ requests st.

(** * Properties *)

(** ** Event log *)

Lemma pushEvent_bounded result event :
  (length (default [] result) <= 100)%nat ->
  (length (pushEvent result event) <= 100)%nat.
Proof.
  intros Hlen. unfold pushEvent. cbv zeta.
  case_bool_decide as Hgt.
  - rewrite length_drop, length_app in *. simpl in *. lia.
  - lia.
Qed.

Lemma storageRead_pending i st event :
  pendingRecords st !! i = Some (mkPendingRecord event None) ->
  storageRead i st =
  set_pendingRecords
    (<[i := mkPendingRecord event (Some (local_blockEvents st))]> (pendingRecords st))
    st.
Proof. intros H. unfold storageRead. rewrite H. reflexivity. Qed.

Lemma storageCallback_served i st event result :
  pendingRecords st !! i = Some (mkPendingRecord event (Some result)) ->
  storageCallback i st =
  set_local_blockEvents (Some (pushEvent result event))
    (set_pendingRecords (delete i (pendingRecords st)) st).
Proof. intros H. unfold storageCallback. rewrite H. reflexivity. Qed.

(** A record that completes on its own appends to the stored list and leaves
    the other pending records alone. *)
Lemma recordCompleted_stored url a now st :
  storedEvents (recordCompleted url a now st)
    = pushEvent (local_blockEvents st) (mkBlockEvent url a now) /\
  pendingRecords (recordCompleted url a now st) = pendingRecords st.
Proof.
  unfold recordCompleted. cbv zeta.
  set (event := mkBlockEvent url a now).
  assert (pendingRecords (logBlockEvent url a now st) !! length (pendingRecords st)
          = Some (mkPendingRecord event None)) as Hnew
    by (simpl; apply list_lookup_middle; reflexivity).
  rewrite (storageRead_pending _ _ event Hnew).
  rewrite (storageCallback_served _ _ event (local_blockEvents st)).
  - simpl. split; [reflexivity|].
    rewrite insert_app_r_alt, Nat.sub_diag by lia. simpl.
    rewrite delete_middle. apply app_nil_r.
  - simpl. rewrite insert_app_r_alt, Nat.sub_diag by lia. simpl.
    apply list_lookup_middle. reflexivity.
Qed.

Lemma recordCompleted_bounded url a now st :
  (length (storedEvents st) <= 100)%nat ->
  (length (storedEvents (recordCompleted url a now st)) <= 100)%nat.
Proof.
  intros Hlen. destruct (recordCompleted_stored url a now st) as [-> _].
  apply pushEvent_bounded. exact Hlen.
Qed.

Lemma recordAll_stored calls : forall st,
  (length (storedEvents st) <= 100)%nat ->
  storedEvents (recordAll calls st) =
  drop (length (storedEvents st ++ (eventOf <$> calls))%list - 100)
       (storedEvents st ++ (eventOf <$> calls))%list.
Proof.
  induction calls as [|c calls IH]; intros st Hlen.
  - simpl. rewrite app_nil_r.
    replace (length (storedEvents st) - 100)%nat with 0%nat by lia.
    reflexivity.
  - change (recordAll (c :: calls) st)
      with (recordAll calls (recordCompleted c.1.1 c.1.2 c.2 st)).
    rewrite IH by (apply recordCompleted_bounded; exact Hlen).
    destruct (recordCompleted_stored c.1.1 c.1.2 c.2 st) as [-> _].
    unfold pushEvent. cbv zeta.
    change (default [] (local_blockEvents st)) with (storedEvents st).
    change (mkBlockEvent c.1.1 c.1.2 c.2) with (eventOf c).
    rewrite fmap_cons.
    case_bool_decide as Hgt.
    + rewrite length_app in Hgt. simpl in Hgt.
      assert (length (storedEvents st) = 100%nat) as H100 by lia.
      rewrite <- (drop_app_le _ (eventOf <$> calls) 1)
        by (rewrite length_app; simpl; lia).
      rewrite drop_drop, <- app_assoc. simpl.
      f_equal. rewrite length_drop, !length_app. simpl. lia.
    + rewrite <- app_assoc. reflexivity.
Qed.

(** C7 (where the code departs from it). Two records whose reads are both
    served before either callback runs: each callback pushes its event onto
    the list as it was before both and stores that, so the second store
    overwrites the first. The log ends as if the first record had never been
    made, and both records are done. *)
Theorem overlapping_records_lose_an_event url1 a1 t1 url2 a2 t2 st :
  let i := length (pendingRecords st) in
  let called := logBlockEvent url2 a2 t2 (logBlockEvent url1 a1 t1 st) in
  let served := storageRead (S i) (storageRead i called) in
  let done := storageCallback i (storageCallback i served) in
  storedEvents done = pushEvent (local_blockEvents st) (mkBlockEvent url2 a2 t2) /\
  pendingRecords done = pendingRecords st.
Proof.
  cbv zeta.
  set (e1 := mkBlockEvent url1 a1 t1). set (e2 := mkBlockEvent url2 a2 t2).
  set (l := pendingRecords st). set (r := local_blockEvents st).
  set (called := logBlockEvent url2 a2 t2 (logBlockEvent url1 a1 t1 st)).
  assert (pendingRecords called
          = (l ++ [mkPendingRecord e1 None; mkPendingRecord e2 None])%list) as Hcalled
    by (simpl; rewrite <- app_assoc; reflexivity).
  assert (storageRead (length l) called
          = set_pendingRecords
              (l ++ [mkPendingRecord e1 (Some r); mkPendingRecord e2 None])%list
              called) as ->.
  { rewrite (storageRead_pending (length l) called e1)
      by (rewrite Hcalled; apply list_lookup_middle; reflexivity).
    rewrite Hcalled, insert_app_r_alt, Nat.sub_diag by lia. reflexivity. }
  assert (storageRead (S (length l))
            (set_pendingRecords
               (l ++ [mkPendingRecord e1 (Some r); mkPendingRecord e2 None])%list
               called)
          = set_pendingRecords
              (l ++ [mkPendingRecord e1 (Some r); mkPendingRecord e2 (Some r)])%list
              called) as ->.
  { rewrite (storageRead_pending (S (length l)) _ e2); simpl.
    - rewrite insert_app_r_alt by lia.
      replace (S (length l) - length l)%nat with 1%nat by lia. reflexivity.
    - rewrite lookup_app_r by lia.
      replace (S (length l) - length l)%nat with 1%nat by lia. reflexivity. }
  assert (storageCallback (length l)
            (set_pendingRecords
               (l ++ [mkPendingRecord e1 (Some r); mkPendingRecord e2 (Some r)])%list
               called)
          = set_local_blockEvents (Some (pushEvent r e1))
              (set_pendingRecords (l ++ [mkPendingRecord e2 (Some r)])%list called))
    as ->.
  { rewrite (storageCallback_served (length l) _ e1 r); simpl.
    - rewrite delete_middle. reflexivity.
    - apply list_lookup_middle. reflexivity. }
  rewrite (storageCallback_served (length l) _ e2 r); simpl.
  - rewrite delete_middle, app_nil_r. split; reflexivity.
  - apply list_lookup_middle. reflexivity.
Qed.

(** ** Arithmetic of [Math.ceil] *)



(** ** Enforcement router *)

Section Router.

Variable parseURL : string -> option URL.
Variable encodeURIComponent : string -> option string.

Lemma redirectTo_encodes tabId url message page st :
  encodes encodeURIComponent url message ->
  redirectTo encodeURIComponent tabId url message page st
    = (Returned, tabs_update tabId page st).
Proof.
  intros [[x Hx] [y Hy]]. unfold redirectTo. rewrite Hx, Hy. reflexivity.
Qed.

Lemma redirectTo_throws tabId url message page st :
  ~ encodes encodeURIComponent url message ->
  redirectTo encodeURIComponent tabId url message page st = (Threw, st).
Proof.
  intros H. unfold redirectTo.
  destruct (encodeURIComponent url) eqn:Hx; [|reflexivity].
  destruct (encodeURIComponent message) eqn:Hy; [|reflexivity].
  exfalso. apply H. split; eauto.
Qed.

Lemma redirectTo_cases tabId url message page st :
  redirectTo encodeURIComponent tabId url message page st
    = (Returned, tabs_update tabId page st) \/
  redirectTo encodeURIComponent tabId url message page st = (Threw, st).
Proof.
  unfold redirectTo.
  destruct (encodeURIComponent url); [|auto].
  destruct (encodeURIComponent message); auto.
Qed.

Lemma router_block tabId url d now st :
  action d = Some "block" ->
  handleBlockedNavigation parseURL encodeURIComponent tabId url d now st =
  thenLog (showBlockPage encodeURIComponent tabId url (reminder_message d) st)
    url (action d) now.
Proof.
  intros Ha. unfold handleBlockedNavigation.
  destruct (decide (action d = Some "block")); [reflexivity | contradiction].
Qed.

Lemma router_conditional tabId url d now st :
  action d = Some "conditional" ->
  handleBlockedNavigation parseURL encodeURIComponent tabId url d now st =
  thenLog
    (showFocusRequirement encodeURIComponent tabId url (remaining_focus_time d)
       (reminder_message d) st)
    url (action d) now.
Proof.
  intros Ha. unfold handleBlockedNavigation.
  repeat (case_decide; try congruence).
Qed.

Lemma router_other tabId url d now st :
  action d <> Some "block" -> action d <> Some "delay" ->
  action d <> Some "conditional" ->
  handleBlockedNavigation parseURL encodeURIComponent tabId url d now st =
  (Returned, logBlockEvent url (action d) now st).
Proof.
  intros Hb Hd Hc. unfold handleBlockedNavigation.
  repeat (case_decide; try congruence).
Qed.

Lemma router_delay_open tabId url d now st u e :
  action d = Some "delay" -> parseURL url = Some u ->
  stillDelayed (hostname u) now st = Some e ->
  handleBlockedNavigation parseURL encodeURIComponent tabId url d now st =
  thenLog
    (showDelayPage encodeURIComponent tabId url
       (Some (Js.ceil_div (e - now) 1000)) (reminder_message d) st)
    url (action d) now.
Proof.
  intros Ha Hu He. unfold handleBlockedNavigation.
  repeat (case_decide; try congruence).
  rewrite Hu. cbv zeta. rewrite He. reflexivity.
Qed.

Lemma router_delay_start tabId url d now st u :
  action d = Some "delay" -> parseURL url = Some u ->
  stillDelayed (hostname u) now st = None ->
  handleBlockedNavigation parseURL encodeURIComponent tabId url d now st =
  thenLog
    (showDelayPage encodeURIComponent tabId url (delay_seconds d)
       (reminder_message d)
       (set_activeDelays
          (insert (hostname u)
             (mkDelayEntry ((fun s => now + s * 1000) <$> delay_seconds d)))
          st))
    url (action d) now.
Proof.
  intros Ha Hu He. unfold handleBlockedNavigation.
  repeat (case_decide; try congruence).
  rewrite Hu. cbv zeta. rewrite He. reflexivity.
Qed.

Lemma router_delay_unparsed tabId url d now st :
  action d = Some "delay" -> parseURL url = None ->
  handleBlockedNavigation parseURL encodeURIComponent tabId url d now st = (Threw, st).
Proof.
  intros Ha Hu. unfold handleBlockedNavigation.
  repeat (case_decide; try congruence).
  rewrite Hu. reflexivity.
Qed.

Lemma pageMessage_block d :
  action d = Some "block" ->
  pageMessage d
    = Some (Js.or_default (reminder_message d) "This site is blocked during focus time.").
Proof. intros Ha. unfold pageMessage. case_decide; [reflexivity|contradiction]. Qed.

Lemma pageMessage_delay d :
  action d = Some "delay" ->
  pageMessage d = Some (Js.or_default (reminder_message d) "Access will be granted soon.").
Proof.
  intros Ha. unfold pageMessage. repeat (case_decide; try congruence).
Qed.

Lemma pageMessage_conditional d :
  action d = Some "conditional" ->
  pageMessage d
    = Some (Js.or_default (reminder_message d)
              ("Focus for "
                 +:+ Js.render ((fun s => Js.ceil_div s 60) <$> remaining_focus_time d)
                 +:+ " more minutes to unlock this site.")).
Proof.
  intros Ha. unfold pageMessage. repeat (case_decide; try congruence).
Qed.

(** What a run of the router leaves behind, by how it ends: if it returns,
    one more pending record, for its [url] and [action] at the current clock;
    if it throws, none, and no redirect. Storage itself is never written by
    the router. *)
Lemma router_outcome tabId url d now st :
  let r := handleBlockedNavigation parseURL encodeURIComponent tabId url d now st in
  local_blockEvents r.2 = local_blockEvents st /\
  (r.1 = Returned ->
   pendingRecords r.2
     = (pendingRecords st
        ++ [mkPendingRecord (mkBlockEvent url (action d) now) None])%list) /\
  (r.1 = Threw ->
   pendingRecords r.2 = pendingRecords st /\ tabUpdates r.2 = tabUpdates st).
Proof.
  cbv zeta. unfold handleBlockedNavigation.
  assert (forall (shown : Completion * State),
    local_blockEvents shown.2 = local_blockEvents st ->
    pendingRecords shown.2 = pendingRecords st ->
    (shown.1 = Threw -> tabUpdates shown.2 = tabUpdates st) ->
    local_blockEvents (thenLog shown url (action d) now).2 = local_blockEvents st /\
    ((thenLog shown url (action d) now).1 = Returned ->
     pendingRecords (thenLog shown url (action d) now).2
       = (pendingRecords st
          ++ [mkPendingRecord (mkBlockEvent url (action d) now) None])%list) /\
    ((thenLog shown url (action d) now).1 = Threw ->
     pendingRecords (thenLog shown url (action d) now).2 = pendingRecords st /\
     tabUpdates (thenLog shown url (action d) now).2 = tabUpdates st)) as Hlog.
  { intros [[] s] Hl Hp Ht; simpl in *.
    - rewrite Hl, Hp. split; [reflexivity|].
      split; [intros _; reflexivity | intros [=]].
    - split; [exact Hl|]. split; [intros [=] | intros _; auto]. }
  assert (forall tab u m page s,
    local_blockEvents s = local_blockEvents st ->
    pendingRecords s = pendingRecords st -> tabUpdates s = tabUpdates st ->
    let shown := redirectTo encodeURIComponent tab u m page s in
    local_blockEvents shown.2 = local_blockEvents st /\
    pendingRecords shown.2 = pendingRecords st /\
    (shown.1 = Threw -> tabUpdates shown.2 = tabUpdates st)) as Hshown.
  { intros tab u m page s Hl Hp Ht. cbv zeta.
    destruct (redirectTo_cases tab u m page s) as [-> | ->]; simpl.
    - split; [exact Hl|]. split; [exact Hp | intros [=]].
    - auto. }
  case_decide.
  { apply Hlog; apply Hshown; reflexivity. }
  case_decide.
  { destruct (parseURL url) as [u|].
    - cbv zeta. destruct (stillDelayed (hostname u) now st) as [e|];
        apply Hlog; apply Hshown; reflexivity.
    - simpl. split; [reflexivity|]. split; [intros [=] | intros _; auto]. }
  case_decide.
  { apply Hlog; apply Hshown; reflexivity. }
  simpl. split; [reflexivity|]. split; [intros _; reflexivity | intros [=]].
Qed.

(** When the redirect can be built and the target parses, the run returns. *)
Lemma router_returns tabId url d now st :
  (action d = Some "delay" -> is_Some (parseURL url)) ->
  redirectEncodes encodeURIComponent url d ->
  (handleBlockedNavigation parseURL encodeURIComponent tabId url d now st).1 = Returned.
Proof.
  intros Hparse Henc.
  destruct (decide (action d = Some "block")) as [Hb|Hb].
  { rewrite router_block by done. unfold showBlockPage.
    rewrite redirectTo_encodes; [reflexivity|].
    apply Henc. apply pageMessage_block. exact Hb. }
  destruct (decide (action d = Some "conditional")) as [Hc|Hc].
  { rewrite router_conditional by done. unfold showFocusRequirement.
    rewrite redirectTo_encodes; [reflexivity|].
    apply Henc. apply pageMessage_conditional. exact Hc. }
  destruct (decide (action d = Some "delay")) as [Hd|Hd].
  - destruct (Hparse Hd) as [u Hu].
    assert (encodes encodeURIComponent url
              (Js.or_default (reminder_message d) "Access will be granted soon."))
      as Hm by (apply Henc; apply pageMessage_delay; exact Hd).
    destruct (stillDelayed (hostname u) now st) as [e|] eqn:He.
    + rewrite (router_delay_open _ _ _ _ _ u e) by done. unfold showDelayPage.
      rewrite redirectTo_encodes by exact Hm. reflexivity.
    + rewrite (router_delay_start _ _ _ _ _ u) by done. unfold showDelayPage.
      rewrite redirectTo_encodes by exact Hm. reflexivity.
  - rewrite router_other by done. reflexivity.
Qed.

(** X27. Every run of the router that gets to its end issues exactly one
    record, for its [url] and [action] at the current clock, also when the
    action is none of [block], [delay], [conditional]; then the event is
    recorded although no tab is redirected and no window is touched. The run
    gets to its end whenever the target parses (needed in the [delay] case
    only) and the redirect's parameters can be encoded. The event reaches the
    stored list when the record's callback runs; if nothing else intervenes
    it is appended to what was stored. *)
Theorem router_issues_one_record tabId url d now st :
  (action d = Some "delay" -> is_Some (parseURL url)) ->
  redirectEncodes encodeURIComponent url d ->
  let r := handleBlockedNavigation parseURL encodeURIComponent tabId url d now st in
  let event := mkBlockEvent url (action d) now in
  let i := length (pendingRecords st) in
  r.1 = Returned /\
  pendingRecords r.2 = (pendingRecords st ++ [mkPendingRecord event None])%list /\
  local_blockEvents r.2 = local_blockEvents st /\
  storedEvents (storageCallback i (storageRead i r.2))
    = pushEvent (local_blockEvents st) event /\
  (action d <> Some "block" -> action d <> Some "delay" ->
   action d <> Some "conditional" ->
   tabUpdates r.2 = tabUpdates st /\ activeDelays r.2 = activeDelays st).
Proof.
  intros Hparse Henc r event i.
  pose proof (router_returns tabId url d now st Hparse Henc) as Hret.
  destruct (router_outcome tabId url d now st) as (Hl & Hp & _).
  cbv zeta in Hl, Hp. fold r in Hret, Hl, Hp. specialize (Hp Hret).
  split; [exact Hret|]. split; [exact Hp|]. split; [exact Hl|]. split.
  - assert (pendingRecords r.2 !! i = Some (mkPendingRecord event None)) as Hnew
      by (rewrite Hp; apply list_lookup_middle; reflexivity).
    rewrite (storageRead_pending i r.2 event Hnew).
    rewrite (storageCallback_served i _ event (local_blockEvents r.2)).
    + simpl. rewrite Hl. reflexivity.
    + simpl. rewrite Hp, insert_app_r_alt, Nat.sub_diag by (unfold i; lia).
      apply list_lookup_middle. reflexivity.
  - intros Hb Hd Hc. unfold r. rewrite router_other by assumption.
    split; reflexivity.
Qed.

(** C10 (where the code departs from it). An invocation of the router for a
    [block], [delay] or [conditional] decision whose target or page message
    cannot be encoded (a reminder holding a lone surrogate) ends in the
    redirect helper, where [encodeURIComponent] throws: no tab is redirected,
    no record is issued and storage is not written, so no event is ever
    appended for this invocation. *)
Theorem unencodable_reminder_skips_the_log tabId url d now st m :
  pageMessage d = Some m ->
  ~ encodes encodeURIComponent url m ->
  let r := handleBlockedNavigation parseURL encodeURIComponent tabId url d now st in
  r.1 = Threw /\
  tabUpdates r.2 = tabUpdates st /\
  pendingRecords r.2 = pendingRecords st /\
  local_blockEvents r.2 = local_blockEvents st.
Proof.
  intros Hm Hno r.
  assert (r.1 = Threw) as Hthrew.
  { unfold r. unfold pageMessage in Hm.
    destruct (decide (action d = Some "block")) as [Hb|Hb].
    { injection Hm as <-. rewrite router_block by exact Hb.
      unfold showBlockPage. rewrite redirectTo_throws by exact Hno. reflexivity. }
    destruct (decide (action d = Some "delay")) as [Hd|Hd].
    { injection Hm as <-. destruct (parseURL url) as [u|] eqn:Hu.
      - destruct (stillDelayed (hostname u) now st) as [e|] eqn:He.
        + rewrite (router_delay_open _ _ _ _ _ u e) by assumption.
          unfold showDelayPage. rewrite redirectTo_throws by exact Hno. reflexivity.
        + rewrite (router_delay_start _ _ _ _ _ u) by assumption.
          unfold showDelayPage. rewrite redirectTo_throws by exact Hno. reflexivity.
      - rewrite router_delay_unparsed by assumption. reflexivity. }
    destruct (decide (action d = Some "conditional")) as [Hc|Hc]; [|discriminate].
    injection Hm as <-. rewrite router_conditional by exact Hc.
    unfold showFocusRequirement. cbv zeta.
    rewrite redirectTo_throws by exact Hno. reflexivity. }
  destruct (router_outcome tabId url d now st) as (Hl & _ & Ht).
  cbv zeta in Hl, Ht. fold r in Hl, Ht. destruct (Ht Hthrew) as [Hp Htab].
  repeat split; assumption.
Qed.



End Router.

(** ** Decision cache *)

Lemma cacheHit_Some url now st j :
  cacheHit url now st = Some j <->
  exists c, blockCache st !! url = Some c /\
            now - timestamp c < CACHE_DURATION /\ j = decision c.
Proof.
  unfold cacheHit. split.
  - destruct (blockCache st !! url) as [c|]; [|discriminate].
    case_bool_decide; [|discriminate].
    intros [= <-]. eauto.
  - intros (c & -> & Hlt & ->).
    rewrite bool_decide_eq_true_2 by assumption. reflexivity.
Qed.

Lemma cacheHit_None url now st :
  cacheHit url now st = None <->
  forall c, blockCache st !! url = Some c -> CACHE_DURATION <= now - timestamp c.
Proof.
  unfold cacheHit. split.
  - destruct (blockCache st !! url) as [c|]; [|discriminate].
    case_bool_decide; [discriminate|].
    intros _ c' [= <-]. lia.
  - intros H. destruct (blockCache st !! url) as [c|]; [|reflexivity].
    specialize (H c eq_refl).
    rewrite bool_decide_eq_false_2 by lia. reflexivity.
Qed.

(** A miss stays a miss as the clock advances, as long as nothing is
    stored. *)
Lemma cacheHit_None_later url now now' st st' :
  cacheHit url now st = None -> now <= now' ->
  blockCache st' = blockCache st ->
  cacheHit url now' st' = None.
Proof.
  rewrite !cacheHit_None. intros H Hle Heq c Hc.
  rewrite Heq in Hc. specialize (H c Hc). lia.
Qed.

Lemma checkBlock_hit url now net now_resp st j :
  cacheHit url now st = Some j ->
  checkBlock url now net now_resp st = (j, st).
Proof. intros H. unfold checkBlock. rewrite H. reflexivity. Qed.

Lemma checkBlock_miss_answered url now now_resp st j :
  cacheHit url now st = None ->
  checkBlock url now (FetchResponse true (Some j)) now_resp st =
  (j, set_blockCache (insert url (mkCacheEntry j now_resp))
        (fetch (CheckBlockRequest url) st)).
Proof. intros H. unfold checkBlock. rewrite H. reflexivity. Qed.

Lemma checkBlock_miss_failed url now net now_resp st :
  cacheHit url now st = None -> authorityFailed net = true ->
  checkBlock url now net now_resp st =
  (JsonPrimitive Js.null,
   console_error "Failed to check block status:"
     (fetch (CheckBlockRequest url) st)).
Proof.
  intros H Hf. unfold checkBlock. rewrite H.
  destruct net as [|[] [j|]]; try reflexivity. discriminate.
Qed.

(** [checkBlock] touches the cache, the request trace and the console,
    nothing else. *)
Lemma checkBlock_frame url now net now_resp st :
  let st' := (checkBlock url now net now_resp st).2 in
  activeDelays st' = activeDelays st /\
  tabUpdates st' = tabUpdates st /\
  local_blockEvents st' = local_blockEvents st /\
  extensionEnabled st' = extensionEnabled st /\
  pendingRecords st' = pendingRecords st.
Proof.
  unfold checkBlock.
  destruct (cacheHit url now st); [done|].
  destruct net as [|[] [j|]]; done.
Qed.

(** C3 (as amended). A lookup less than 30 seconds after the stored entry's
    fetch time returns the stored decision, changes nothing and calls nobody.
    A lookup 30 seconds or more after it is a miss that makes exactly one
    authority call; a successful answer is returned and overwrites the entry
    with the answer and its own fetch time, a failed call returns [null] and
    leaves the cache as it was, the old entry still in it. *)
Theorem cache_ttl_lookup url now net now_resp st c :
  blockCache st !! url = Some c ->
  let r := checkBlock url now net now_resp st in
  (now - timestamp c < 30000 -> r = (decision c, st)) /\
  (30000 <= now - timestamp c ->
   requests r.2 = (requests st ++ [CheckBlockRequest url])%list /\
   (forall j, net = FetchResponse true (Some j) ->
      r.1 = j /\
      blockCache r.2 = <[url := mkCacheEntry j now_resp]> (blockCache st)) /\
   (authorityFailed net = true ->
      r.1 = JsonPrimitive Js.null /\ blockCache r.2 = blockCache st)).
Proof.
  intros Hc r. split.
  - intros Hlt. apply checkBlock_hit. apply cacheHit_Some. eauto.
  - intros Hge.
    assert (cacheHit url now st = None) as Hmiss.
    { apply cacheHit_None. intros c' Hc'. rewrite Hc in Hc'.
      injection Hc' as <-. exact Hge. }
    split; [|split].
    + unfold r, checkBlock. rewrite Hmiss.
      destruct net as [|[] [j|]]; reflexivity.
    + intros j ->. unfold r. rewrite checkBlock_miss_answered by assumption.
      split; reflexivity.
    + intros Hf. unfold r. rewrite checkBlock_miss_failed by assumption.
      split; reflexivity.
Qed.


(** ** Navigation interceptor *)

Section Interceptor.

Variable parseURL : string -> option URL.
Variable encodeURIComponent : string -> option string.

(** The router calls nobody and leaves the cache and the toggle alone. *)
Lemma router_frame tabId url d now st :
  let st' := (handleBlockedNavigation parseURL encodeURIComponent tabId url d now st).2 in
  requests st' = requests st /\ blockCache st' = blockCache st /\
  extensionEnabled st' = extensionEnabled st /\
  sync_enabled st' = sync_enabled st.
Proof.
  unfold handleBlockedNavigation, thenLog, showBlockPage, showDelayPage,
    showFocusRequirement, redirectTo.
  repeat case_decide;
    repeat match goal with
    | |- context [match parseURL ?x with _ => _ end] => destruct (parseURL x)
    | |- context [match stillDelayed ?k ?n ?s with _ => _ end] =>
        destruct (stillDelayed k n s)
    | |- context [match encodeURIComponent ?x with _ => _ end] =>
        destruct (encodeURIComponent x)
    end; done.
Qed.

Lemma enforceDecision_frame tabId url j now st :
  let st' := (enforceDecision parseURL encodeURIComponent tabId url j now st).2 in
  requests st' = requests st /\ blockCache st' = blockCache st.
Proof.
  unfold enforceDecision. destruct j as [d|v]; [|done].
  destruct (Js.truthy (should_block d)); [|done].
  destruct (router_frame tabId url d now st) as (? & ? & _). done.
Qed.

(** Without a truthy [should_block] nothing is enforced. *)
Lemma enforceDecision_not_blocking tabId url j now st :
  (forall d, j = JsonObject d -> Js.truthy (should_block d) = false) ->
  enforceDecision parseURL encodeURIComponent tabId url j now st = (Returned, st).
Proof.
  intros H. unfold enforceDecision. destruct j as [d|v]; [|reflexivity].
  rewrite (H d eq_refl). reflexivity.
Qed.

(** With one, the router runs. *)
Lemma enforceDecision_blocking tabId url d now st :
  Js.truthy (should_block d) = true ->
  enforceDecision parseURL encodeURIComponent tabId url (JsonObject d) now st =
  handleBlockedNavigation parseURL encodeURIComponent tabId url d now st.
Proof. intros H. unfold enforceDecision. rewrite H. reflexivity. Qed.

Lemma onBeforeNavigate_qualifies details clock net st u :
  qualifies parseURL details st u ->
  onBeforeNavigate parseURL encodeURIComponent details clock net st =
  enforceDecision parseURL encodeURIComponent (tabId details) (href u)
    (checkBlock (href u) (at_lookup clock) net (at_store clock) st).1
    (at_enforce clock)
    (checkBlock (href u) (at_lookup clock) net (at_store clock) st).2.
Proof.
  intros (Hf & He & Hu & Hl & Hip & Hp). unfold onBeforeNavigate.
  rewrite Hf, He, Hu. cbv zeta. simpl.
  destruct (String.eqb_spec (hostname u) "localhost"); [contradiction|].
  destruct (String.eqb_spec (hostname u) "127.0.0.1"); [contradiction|].
  destruct (String.eqb_spec (protocol u) "chrome-extension:"); [contradiction|].
  simpl. destruct (checkBlock _ _ _ _ _). reflexivity.
Qed.

(** A navigation either is filtered out, leaving the state alone, or
    qualifies. *)
Lemma onBeforeNavigate_filtered details clock net st :
  (onBeforeNavigate parseURL encodeURIComponent details clock net st).2 = st \/
  exists u, qualifies parseURL details st u.
Proof.
  unfold onBeforeNavigate, qualifies.
  destruct (Z.eqb_spec (frameId details) 0) as [Hf|]; [|left; reflexivity].
  destruct (extensionEnabled st) eqn:He; [|left; reflexivity].
  simpl. destruct (parseURL (url details)) as [u|]; [|left; reflexivity].
  cbv zeta.
  destruct (String.eqb_spec (hostname u) "localhost"); [left; reflexivity|].
  destruct (String.eqb_spec (hostname u) "127.0.0.1"); [left; reflexivity|].
  destruct (String.eqb_spec (protocol u) "chrome-extension:"); [left; reflexivity|].
  right. exists u. done.
Qed.

(** With the toggle off the listener does nothing. *)
Lemma onBeforeNavigate_disabled details clock net st :
  extensionEnabled st = false ->
  onBeforeNavigate parseURL encodeURIComponent details clock net st = (Returned, st).
Proof.
  intros He. unfold onBeforeNavigate. rewrite He.
  rewrite orb_true_r. reflexivity.
Qed.

(** C9. Enforcement is gated on a truthy [should_block]: when the decision
    the listener obtains for a navigation, cached or fresh, has a
    [should_block] that is false or absent (or is no object at all), the
    listener returns without redirecting a tab, without appending to the
    event log (no record is even issued) and without touching the delay
    windows, whatever the decision's [action]. *)
Theorem should_block_gates_enforcement details clock net st u :
  parseURL (url details) = Some u ->
  (forall d,
     (checkBlock (href u) (at_lookup clock) net (at_store clock) st).1 = JsonObject d ->
     Js.truthy (should_block d) = false) ->
  let r := onBeforeNavigate parseURL encodeURIComponent details clock net st in
  r.1 = Returned /\
  tabUpdates r.2 = tabUpdates st /\
  local_blockEvents r.2 = local_blockEvents st /\
  pendingRecords r.2 = pendingRecords st /\
  activeDelays r.2 = activeDelays st.
Proof.
  intros Hu Hfalsy r. unfold r, onBeforeNavigate.
  destruct (negb (frameId details =? 0)%Z || negb (extensionEnabled st)); [done|].
  rewrite Hu. cbv zeta.
  destruct (_ || _ || _); [done|].
  pose proof (checkBlock_frame (href u) (at_lookup clock) net (at_store clock) st)
    as (Hd & Ht & Hl & _ & Hp).
  destruct (checkBlock _ _ _ _ _) as [j st1] eqn:Hcb. simpl in *.
  rewrite enforceDecision_not_blocking by assumption. done.
Qed.

(** The other side of the gate: a qualifying navigation whose decision is an
    object with a truthy [should_block] is handed to the router. *)
Lemma should_block_invokes_router details clock net st u d :
  qualifies parseURL details st u ->
  (checkBlock (href u) (at_lookup clock) net (at_store clock) st).1 = JsonObject d ->
  Js.truthy (should_block d) = true ->
  onBeforeNavigate parseURL encodeURIComponent details clock net st =
  handleBlockedNavigation parseURL encodeURIComponent (tabId details) (href u) d (at_enforce clock)
    (checkBlock (href u) (at_lookup clock) net (at_store clock) st).2.
Proof.
  intros Hq Hj Ht. rewrite (onBeforeNavigate_qualifies _ _ _ _ u) by assumption.
  rewrite Hj. apply enforceDecision_blocking. exact Ht.
Qed.

(** C5. Fail open. When a navigation's authority call fails (the fetch
    rejects, the status is not a success, or the body is unreadable) the
    listener returns normally and the result counts as no decision: no tab is
    redirected, no event is logged, no window is touched, and the cache is
    left as it was, so a navigation to the same target at any later clock
    misses the cache again and contacts the authority again. *)
Theorem authority_failure_fails_open details clock net st :
  let r := onBeforeNavigate parseURL encodeURIComponent details clock net st in
  requests r.2 <> requests st ->
  authorityFailed net = true ->
  r.1 = Returned /\
  tabUpdates r.2 = tabUpdates st /\
  local_blockEvents r.2 = local_blockEvents st /\
  pendingRecords r.2 = pendingRecords st /\
  activeDelays r.2 = activeDelays st /\
  blockCache r.2 = blockCache st /\
  exists u, parseURL (url details) = Some u /\
    requests r.2 = (requests st ++ [CheckBlockRequest (href u)])%list /\
    forall now', at_lookup clock <= now' -> cacheHit (href u) now' r.2 = None.
Proof.
  intros r Hcall Hfail.
  destruct (onBeforeNavigate_filtered details clock net st) as [Hsame|[u Hq]].
  { exfalso. apply Hcall. fold r in Hsame. rewrite Hsame. reflexivity. }
  assert (r = enforceDecision parseURL encodeURIComponent (tabId details) (href u)
    (checkBlock (href u) (at_lookup clock) net (at_store clock) st).1
    (at_enforce clock)
    (checkBlock (href u) (at_lookup clock) net (at_store clock) st).2) as Hr
    by (apply onBeforeNavigate_qualifies; exact Hq).
  destruct (cacheHit (href u) (at_lookup clock) st) as [j|] eqn:Hhit.
  { exfalso. apply Hcall. rewrite Hr.
    rewrite (checkBlock_hit _ _ _ _ _ j Hhit). simpl.
    apply enforceDecision_frame. }
  rewrite checkBlock_miss_failed in Hr by assumption. simpl in Hr.
  rewrite Hr. repeat (split; [reflexivity|]).
  exists u. split; [apply Hq|]. split; [reflexivity|].
  intros now' Hle. eapply cacheHit_None_later; [exact Hhit|exact Hle|reflexivity].
Qed.


End Interceptor.


(** ** Messages, override and the toggle *)

Section Messages.

Variable parseURL : string -> option URL.

(** C2 (as amended). For a target [T] that parses, [overrideBlock] clears the
    delay window of [T]'s domain, removes the cache entry of exactly [T] (the
    next lookup of [T] misses, every other entry stays), answers success, and
    issues one [POST /api/override] to the authority. The outcome of that
    report changes none of this. The local event log is not touched and no
    record for it is issued: the override is recorded with the authority
    only. *)
Theorem override_local_effects url now net st u :
  parseURL url = Some u ->
  let st' := (onMessage parseURL (overrideBlock url) now net st).1.2 in
  onMessage parseURL (overrideBlock url) now net st =
    (Returned, st', Some SuccessResponse) /\
  activeDelays st' = delete (hostname u) (activeDelays st) /\
  activeDelays st' !! hostname u = None /\
  blockCache st' = delete url (blockCache st) /\
  (forall now', cacheHit url now' st' = None) /\
  (forall url', url' <> url -> blockCache st' !! url' = blockCache st !! url') /\
  requests st' = (requests st ++ [OverrideRequest url now])%list /\
  local_blockEvents st' = local_blockEvents st /\
  pendingRecords st' = pendingRecords st /\
  tabUpdates st' = tabUpdates st /\
  (forall net',
     let st'' := (onMessage parseURL (overrideBlock url) now net' st).1.2 in
     (onMessage parseURL (overrideBlock url) now net' st).1.1 = Returned /\
     activeDelays st'' = activeDelays st' /\
     blockCache st'' = blockCache st' /\
     requests st'' = requests st' /\
     local_blockEvents st'' = local_blockEvents st').
Proof.
  intros Hu st'. unfold st', onMessage. rewrite Hu. cbv zeta.
  assert (forall n : FetchResult unit,
    let s := logOverride url now n
               (set_blockCache (delete url)
                  (set_activeDelays (delete (hostname u)) st)) in
    activeDelays s = delete (hostname u) (activeDelays st) /\
    blockCache s = delete url (blockCache st) /\
    requests s = (requests st ++ [OverrideRequest url now])%list /\
    local_blockEvents s = local_blockEvents st /\
    tabUpdates s = tabUpdates st /\
    pendingRecords s = pendingRecords st) as Hfields.
  { intros n. unfold logOverride. destruct n; done. }
  destruct (Hfields net) as (Hd & Hc & Hr & Hl & Ht & Hp).
  cbv zeta in Hd, Hc, Hr, Hl, Ht, Hp. simpl.
  split; [reflexivity|].
  split; [exact Hd|].
  split; [rewrite Hd; apply lookup_delete_eq|].
  split; [exact Hc|].
  split.
  { intros now'. unfold cacheHit. rewrite Hc, lookup_delete_eq. reflexivity. }
  split.
  { intros url' Hne. rewrite Hc. apply lookup_delete_ne. congruence. }
  split; [exact Hr|]. split; [exact Hl|]. split; [exact Hp|]. split; [exact Ht|].
  intros net'. destruct (Hfields net') as (Hd' & Hc' & Hr' & Hl' & _).
  cbv zeta in Hd', Hc', Hr', Hl'. simpl.
  split; [reflexivity|]. repeat split; congruence.
Qed.

(** The scheduled expiry: the alarm named after a domain removes that
    domain's window, as the lazy test in the router would disregard it. *)
Lemma substring_all (s : string) : String.substring 0 (String.length s) s = s.
Proof. induction s as [|c s IH]; simpl; [reflexivity | rewrite IH; reflexivity]. Qed.

Lemma prefix_app (p s : string) : String.prefix p (p +:+ s) = true.
Proof.
  induction p as [|c p IH].
  - destruct s; reflexivity.
  - simpl. destruct (Ascii.ascii_dec c c); [exact IH | contradiction].
Qed.

Lemma substring_after_prefix (p s : string) :
  String.substring (String.length p)
    (String.length (p +:+ s) - String.length p) (p +:+ s) = s.
Proof.
  induction p as [|c p IH]; simpl.
  - rewrite Nat.sub_0_r. apply substring_all.
  - exact IH.
Qed.

Lemma onAlarm_clears_window domain now st :
  let st' := onAlarm ("delay-" +:+ domain) st in
  activeDelays st' = delete domain (activeDelays st) /\
  stillDelayed domain now st' = None /\
  blockCache st' = blockCache st.
Proof.
  cbv zeta. unfold onAlarm. rewrite prefix_app.
  pose proof (substring_after_prefix "delay-" domain) as Hs.
  change (String.length "delay-") with 6%nat in Hs. rewrite Hs.
  split; [reflexivity|]. split; [|reflexivity].
  unfold stillDelayed. simpl. rewrite lookup_delete_eq. reflexivity.
Qed.

(** Every mutation of the toggle is written to [chrome.storage.sync]. *)
Lemma toggle_message_persists now net st :
  let st' := (onMessage parseURL toggleExtension now net st).1.2 in
  extensionEnabled st' = negb (extensionEnabled st) /\
  sync_enabled st' = Some (extensionEnabled st').
Proof. done. Qed.

Lemma toggle_context_menu_persists st :
  let st' := onContextMenu "toggle-focus-mode" st in
  extensionEnabled st' = negb (extensionEnabled st) /\
  sync_enabled st' = Some (extensionEnabled st').
Proof.
  cbv zeta. unfold onContextMenu. simpl.
  destruct (negb (extensionEnabled st) && _); done.
Qed.

(** A first install leaves the toggle enabled, in memory and in storage. *)
Lemma first_install_enabled :
  let st := onInstalled (startWorker emptyProfile) in
  extensionEnabled st = true /\ sync_enabled st = Some true.
Proof. done. Qed.

(** C6 (where the code departs from it). Switch the toggle off in a running
    worker: the flag is [false] and [false] is what storage holds. Start the
    worker again over that storage: storage still holds [false], the flag is
    [true], and nothing the worker runs ever reads the stored value back. The
    reinstall handler even overwrites the stored [false] with [true]. *)
Theorem toggle_not_loaded_at_start now net st :
  let off := (onMessage parseURL toggleExtension now net (startWorker st)).1.2 in
  extensionEnabled off = false /\
  sync_enabled off = Some false /\
  sync_enabled (startWorker off) = Some false /\
  extensionEnabled (startWorker off) = true /\
  sync_enabled (onInstalled (startWorker off)) = Some true.
Proof.
  cbv zeta. repeat (split; [reflexivity|]).
  unfold onInstalled. simpl. destruct (String.eqb _ _); reflexivity.
Qed.

End Messages.


(** * Concrete runs of the properties *)



Lemma should_block_gates_enforcement_witness :
  simpleURL (url toReddit) = Some redditURL /\
  Js.truthy (should_block blockNotFlagged) = false /\
  let r := onBeforeNavigate simpleURL simpleEncode toReddit (mkClock 0 5 6)
             (answer blockNotFlagged) installed in
  r.1 = Returned /\ tabUpdates r.2 = [] /\ local_blockEvents r.2 = None.
Proof.
  split; [reflexivity|]. split; [reflexivity|].
  assert (forall d,
    (checkBlock (href redditURL) 0 (answer blockNotFlagged) 5 installed).1
      = JsonObject d ->
    Js.truthy (should_block d) = false) as Hfalsy
    by (intros d [= <-]; reflexivity).
  destruct (should_block_gates_enforcement simpleURL simpleEncode toReddit (mkClock 0 5 6)
              (answer blockNotFlagged) installed redditURL eq_refl Hfalsy)
    as (Hret & Htab & Hlog & _).
  split; [exact Hret|]. split; [exact Htab | exact Hlog].
Defined.

Lemma authority_failure_fails_open_witness :
  let r := onBeforeNavigate simpleURL simpleEncode toReddit (mkClock 0 5 6) FetchRejected installed in
  requests r.2 <> requests installed /\
  authorityFailed (@FetchRejected Json) = true /\
  r.1 = Returned /\ tabUpdates r.2 = [] /\ blockCache r.2 = ∅.
Proof.
  assert (requests (onBeforeNavigate simpleURL simpleEncode toReddit (mkClock 0 5 6)
                      FetchRejected installed).2 <> requests installed) as Hcall
    by (vm_compute; discriminate).
  split; [exact Hcall|]. split; [reflexivity|].
  destruct (authority_failure_fails_open simpleURL simpleEncode toReddit (mkClock 0 5 6)
              FetchRejected installed Hcall eq_refl)
    as (Hret & Htab & _ & _ & _ & Hcache & _).
  split; [exact Hret|]. split; [exact Htab | exact Hcache].
Defined.



(** C3, the claim as stated fails. The entry for reddit was fetched at
    clock 5; at 40000 it is older than 30 seconds and the authority cannot be
    reached. The lookup is a miss, one call is made, and the old entry is
    still in the cache afterwards. *)
Lemma stale_entry_not_evicted_counterexample :
  let r := checkBlock reddit 40000 FetchRejected 40001 delayed10 in
  blockCache delayed10 !! reddit = Some (mkCacheEntry (JsonObject delay10) 5) /\
  30000 < 40000 - 5 /\
  r.1 = JsonPrimitive Js.null /\
  requests r.2 = (requests delayed10 ++ [CheckBlockRequest reddit])%list /\
  blockCache r.2 !! reddit = Some (mkCacheEntry (JsonObject delay10) 5).
Proof.
  cbv zeta. split; [vm_compute; reflexivity|]. split; [lia|].
  repeat split; vm_compute; reflexivity.
Qed.

Lemma cache_ttl_lookup_witness :
  blockCache delayed10 !! reddit = Some (mkCacheEntry (JsonObject delay10) 5) /\
  checkBlock reddit 15000 (answer blockNow) 15001 delayed10
    = (JsonObject delay10, delayed10) /\
  blockCache (checkBlock reddit 40000 (answer blockNow) 40001 delayed10).2
    = <[reddit := mkCacheEntry (JsonObject blockNow) 40001]> (blockCache delayed10).
Proof.
  assert (blockCache delayed10 !! reddit
          = Some (mkCacheEntry (JsonObject delay10) 5)) as Hc
    by (vm_compute; reflexivity).
  split; [exact Hc|]. split.
  - destruct (cache_ttl_lookup reddit 15000 (answer blockNow) 15001 delayed10 _ Hc)
      as (Hhit & _).
    apply Hhit. simpl. lia.
  - destruct (cache_ttl_lookup reddit 40000 (answer blockNow) 40001 delayed10 _ Hc)
      as (_ & Hmiss).
    destruct Hmiss as (_ & Hok & _); [simpl; lia|].
    apply (Hok (JsonObject blockNow)). reflexivity.
Defined.

(** C2, the claim as stated fails. Overriding reddit in the delayed worker
    clears the window and the cache entry and reports to the authority, but
    the local event log holds what it held before, the one [delay] event: no
    override record is appended. *)
Lemma override_appends_no_event_counterexample :
  let st' := (onMessage simpleURL (overrideBlock reddit) 7000 FetchRejected delayed10).1.2 in
  storedEvents delayed10 = [mkBlockEvent reddit (Some "delay") 6] /\
  storedEvents st' = storedEvents delayed10 /\
  length (storedEvents st') <> S (length (storedEvents delayed10)) /\
  activeDelays st' !! "reddit.com" = None /\
  blockCache st' !! reddit = None /\
  requests st' = (requests delayed10 ++ [OverrideRequest reddit 7000])%list.
Proof.
  cbv zeta. split; [vm_compute; reflexivity|]. split; [vm_compute; reflexivity|].
  split; [vm_compute; discriminate|].
  repeat split; vm_compute; reflexivity.
Qed.

Lemma override_local_effects_witness :
  simpleURL reddit = Some redditURL /\
  let st' := (onMessage simpleURL (overrideBlock reddit) 7000 FetchRejected delayed10).1.2 in
  activeDelays st' !! "reddit.com" = None /\
  cacheHit reddit 7001 st' = None /\
  local_blockEvents st' = local_blockEvents delayed10.
Proof.
  split; [reflexivity|].
  destruct (override_local_effects simpleURL reddit 7000 FetchRejected delayed10
              redditURL eq_refl)
    as (_ & _ & Hwin & _ & Hmiss & _ & _ & Hlog & _).
  split; [exact Hwin|]. split; [apply Hmiss | exact Hlog].
Defined.

(** C6 on a run: the user switches focus mode off, the worker is restarted,
    and the next navigation to reddit is intercepted and blocked although
    storage says the extension is disabled. *)
Example restart_forgets_disabled_toggle :
  let off := (onMessage simpleURL toggleExtension 0 FetchRejected installed).1.2 in
  let restarted := startWorker off in
  let r := beforeNavigate simpleURL simpleEncode toReddit (mkClock 10 11 12) (answer blockNow) restarted in
  (beforeNavigate simpleURL simpleEncode toReddit (mkClock 10 11 12) (answer blockNow) off).2 = off /\
  sync_enabled restarted = Some false /\
  extensionEnabled restarted = true /\
  tabUpdates r.2 = [(7, BlockedPage reddit "Stay focused")].
Proof. cbv zeta. repeat split; vm_compute; reflexivity. Qed.


(** C7 on a run. Two navigations are blocked one right after the other, and
    storage serves both reads before either callback runs: one event is in
    the log afterwards, the first navigation's is lost. Had the first record
    completed before the second was issued, both would be there. *)
Example overlapping_navigations_log_one_event :
  let twitter := mkDetails 0 8 "https://twitter.com/" in
  let st1 := (beforeNavigate simpleURL simpleEncode toReddit (mkClock 0 5 6)
                (answer blockNow) installed).2 in
  let st2 := (beforeNavigate simpleURL simpleEncode twitter (mkClock 7 8 9)
                (answer blockNow) st1).2 in
  let overlapped :=
    storageCallback 0 (storageCallback 0 (storageRead 1 (storageRead 0 st2))) in
  pendingRecords st2 =
    [mkPendingRecord (mkBlockEvent reddit (Some "block") 6) None;
     mkPendingRecord (mkBlockEvent "https://twitter.com/" (Some "block") 9) None] /\
  storedEvents overlapped = [mkBlockEvent "https://twitter.com/" (Some "block") 9] /\
  pendingRecords overlapped = [] /\
  storedEvents (settle st2) =
    [mkBlockEvent reddit (Some "block") 6;
     mkBlockEvent "https://twitter.com/" (Some "block") 9].
Proof. cbv zeta. repeat split; vm_compute; reflexivity. Qed.

(** C10 on a run. The authority answers a blocking [block] decision whose
    reminder is a lone surrogate: the router throws in [showBlockPage] and
    leaves the state as it was, with no redirect and no record. *)
Lemma unencodable_reminder_skips_the_log_witness :
  pageMessage blockUnencodable = Some loneSurrogate /\
  ~ encodes simpleEncode reddit loneSurrogate /\
  let r := handleBlockedNavigation simpleURL simpleEncode 7 reddit blockUnencodable 6
             installed in
  r.1 = Threw /\ tabUpdates r.2 = [] /\ pendingRecords r.2 = [] /\
  local_blockEvents r.2 = None.
Proof.
  assert (pageMessage blockUnencodable = Some loneSurrogate) as Hm by reflexivity.
  assert (~ encodes simpleEncode reddit loneSurrogate) as Hno
    by (intros [_ [x Hx]]; discriminate Hx).
  split; [exact Hm|]. split; [exact Hno|].
  exact (unencodable_reminder_skips_the_log simpleURL simpleEncode 7 reddit
           blockUnencodable 6 installed loneSurrogate Hm Hno).
Defined.

(** The same seen from the listener: it throws, nothing is redirected or
    recorded, and the answer has been cached all the same, so the next
    navigations to the target end the same way without asking. *)
Example unencodable_reminder_on_a_navigation :
  let r := beforeNavigate simpleURL simpleEncode toReddit (mkClock 0 5 6)
             (answer blockUnencodable) installed in
  let again := beforeNavigate simpleURL simpleEncode toReddit (mkClock 100 105 106)
                 FetchRejected r.2 in
  r.1 = Threw /\
  tabUpdates r.2 = [] /\
  pendingRecords r.2 = [] /\
  local_blockEvents r.2 = None /\
  blockCache r.2 !! reddit = Some (mkCacheEntry (JsonObject blockUnencodable) 5) /\
  again.1 = Threw /\ again.2 = r.2.
Proof. cbv zeta. repeat split; vm_compute; reflexivity. Qed.

(** * Further properties of the worker *)

(** ** Interceptor and cache *)

(** X1. A navigation in a sub-frame, or with the toggle off, or to
    [localhost], [127.0.0.1] or an extension page, is none of the worker's
    business: the listener returns with the state exactly as it was, no
    authority call, no cache entry, no redirect. *)
Theorem filtered_navigation_is_noop parseURL encodeURIComponent details clock net st :
  (frameId details <> 0 \/ extensionEnabled st = false \/
   exists u, parseURL (url details) = Some u /\
     (hostname u = "localhost" \/ hostname u = "127.0.0.1" \/
      protocol u = "chrome-extension:")) ->
  onBeforeNavigate parseURL encodeURIComponent details clock net st = (Returned, st).
Proof.
  intros H. unfold onBeforeNavigate.
  destruct (Z.eqb_spec (frameId details) 0) as [Hf|Hf]; [|reflexivity].
  destruct (extensionEnabled st) eqn:He; [|reflexivity].
  simpl. destruct H as [H|[H|(u & Hu & H)]]; [contradiction|discriminate|].
  rewrite Hu. cbv zeta.
  destruct H as [H | [H | H]]; rewrite H; simpl; rewrite ?orb_true_r;
    reflexivity.
Qed.

Lemma filtered_navigation_is_noop_witness :
  frameId (mkDetails 3 7 reddit) <> 0 /\
  onBeforeNavigate simpleURL simpleEncode (mkDetails 3 7 reddit) (mkClock 0 5 6)
    (answer blockNow) installed = (Returned, installed).
Proof.
  assert (frameId (mkDetails 3 7 reddit) <> 0) as Hf by (simpl; lia).
  split; [exact Hf|].
  apply filtered_navigation_is_noop. left. exact Hf.
Defined.

(** X2. Store then look up. Once a miss has been answered, the answer,
    blocking or not, is what every lookup of the same target returns for the
    next 30 seconds after it was stored, without a second authority call and
    without any change of state, whatever the authority would say now. *)
Theorem cached_answer_is_replayed url now now_resp now' net' now_resp' j st :
  cacheHit url now st = None ->
  now' - now_resp < 30000 ->
  let st1 := (checkBlock url now (FetchResponse true (Some j)) now_resp st).2 in
  requests st1 = (requests st ++ [CheckBlockRequest url])%list /\
  checkBlock url now' net' now_resp' st1 = (j, st1).
Proof.
  intros Hmiss Hfresh st1. unfold st1.
  rewrite checkBlock_miss_answered by assumption. simpl.
  split; [reflexivity|].
  apply checkBlock_hit. apply cacheHit_Some.
  exists (mkCacheEntry j now_resp). simpl.
  rewrite lookup_insert_eq. auto.
Qed.

Lemma cached_answer_is_replayed_witness :
  cacheHit reddit 0 installed = None /\ 29000 - 5 < 30000 /\
  let st1 := (checkBlock reddit 0 (answer blockNotFlagged) 5 installed).2 in
  checkBlock reddit 29000 (answer blockNow) 29001 st1 = (JsonObject blockNotFlagged, st1).
Proof.
  assert (cacheHit reddit 0 installed = None) as Hmiss by reflexivity.
  assert (29000 - 5 < 30000) as Hfresh by lia.
  split; [exact Hmiss|]. split; [exact Hfresh|].
  apply (cached_answer_is_replayed reddit 0 5 29000 (answer blockNow) 29001
           (JsonObject blockNotFlagged) installed Hmiss Hfresh).
Defined.

(** X3. The cache is keyed by the exact target: whatever a check of one
    target does, the entry of every other target, and so the outcome of its
    next lookup, is unchanged. *)
Theorem checkBlock_keeps_other_targets url url' now net now_resp now' st :
  url' <> url ->
  let st' := (checkBlock url now net now_resp st).2 in
  blockCache st' !! url' = blockCache st !! url' /\
  cacheHit url' now' st' = cacheHit url' now' st.
Proof.
  intros Hne st'.
  assert (blockCache st' !! url' = blockCache st !! url') as Hsame.
  { unfold st', checkBlock. destruct (cacheHit url now st); [reflexivity|].
    destruct net as [|[] [j|]]; try reflexivity.
    simpl. apply lookup_insert_ne. congruence. }
  split; [exact Hsame|]. unfold cacheHit. rewrite Hsame. reflexivity.
Qed.

Lemma checkBlock_keeps_other_targets_witness :
  "https://reddit.com/r/coq" <> reddit /\
  cacheHit reddit 100
    (checkBlock "https://reddit.com/r/coq" 50 (answer blockNow) 60 delayed10).2
  = Some (JsonObject delay10).
Proof.
  assert ("https://reddit.com/r/coq" <> reddit) as Hne by discriminate.
  split; [exact Hne|].
  destruct (checkBlock_keeps_other_targets "https://reddit.com/r/coq" reddit 50
              (answer blockNow) 60 100 delayed10) as [_ Hhit].
  - congruence.
  - rewrite Hhit. vm_compute. reflexivity.
Defined.

(** ** Router and delay tracker *)

Lemma thenLog_redirectTo_windows encodeURIComponent tabId url message page a now st :
  activeDelays
    (thenLog (redirectTo encodeURIComponent tabId url message page st) url a now).2
  = activeDelays st.
Proof.
  destruct (redirectTo_cases encodeURIComponent tabId url message page st)
    as [-> | ->]; reflexivity.
Qed.

Lemma thenLog_redirectTo_tabs encodeURIComponent tabId url message page a now st :
  encodes encodeURIComponent url message ->
  tabUpdates
    (thenLog (redirectTo encodeURIComponent tabId url message page st) url a now).2
  = (tabUpdates st ++ [(tabId, page)])%list.
Proof. intros Henc. rewrite redirectTo_encodes by exact Henc. reflexivity. Qed.



(** X5. A window that is over as it starts. A [delay] decision whose
    [delay_seconds] is zero, negative or missing still redirects to the delay
    page, once, with that value, but the window it records never counts as
    open: at any clock from then on the next [delay] decision for the domain
    starts over instead of showing remaining time. (The page is shown when
    its two parameters can be encoded; the window is as stated either
    way.) *)
Theorem delay_without_duration_never_holds
    parseURL encodeURIComponent tabId url d now now' st u :
  action d = Some "delay" ->
  parseURL url = Some u ->
  stillDelayed (hostname u) now st = None ->
  (forall s, delay_seconds d = Some s -> s <= 0) ->
  now <= now' ->
  let st1 := (handleBlockedNavigation parseURL encodeURIComponent tabId url d now st).2 in
  let message := Js.or_default (reminder_message d) "Access will be granted soon." in
  (encodes encodeURIComponent url message ->
   tabUpdates st1 =
     (tabUpdates st ++ [(tabId, DelayPage url (delay_seconds d) message)])%list) /\
  stillDelayed (hostname u) now' st1 = None.
Proof.
  intros Ha Hu Hno Hs Hle st1 message. unfold st1.
  rewrite (router_delay_start parseURL encodeURIComponent tabId url d now st u)
    by assumption.
  unfold showDelayPage. cbv zeta. fold message. split.
  - intros Henc. rewrite thenLog_redirectTo_tabs by exact Henc. reflexivity.
  - unfold stillDelayed. rewrite thenLog_redirectTo_windows. simpl.
    rewrite lookup_insert_eq. simpl.
    destruct (delay_seconds d) as [s|]; [|reflexivity]. simpl.
    specialize (Hs s eq_refl).
    rewrite bool_decide_eq_false_2 by lia. reflexivity.
Qed.

Lemma delay_without_duration_never_holds_witness :
  stillDelayed "reddit.com" 50 installed = None /\
  (forall s, delay_seconds delay0 = Some s -> s <= 0) /\ 50 <= 50 /\
  stillDelayed "reddit.com" 50
    (handleBlockedNavigation simpleURL simpleEncode 7 reddit delay0 50 installed).2
  = None.
Proof.
  assert (stillDelayed (hostname redditURL) 50 installed = None) as Hno by reflexivity.
  assert (forall s, delay_seconds delay0 = Some s -> s <= 0) as Hs
    by (intros s [= <-]; lia).
  assert (50 <= 50) as Hle by lia.
  split; [exact Hno|]. split; [exact Hs|]. split; [exact Hle|].
  apply (delay_without_duration_never_holds simpleURL simpleEncode 7 reddit delay0
           50 50 installed redditURL eq_refl eq_refl Hno Hs Hle).
Defined.

(** X6. A [block] decision whose target and message can be encoded redirects
    the tab to the block page, once, with the decision's reminder as the
    message, or the standard text when the reminder is missing or empty. If
    either cannot be encoded, as with a reminder holding a lone surrogate,
    the run throws with nothing changed: no redirect, no record. The delay
    windows are left alone either way. *)
Theorem block_redirects_with_message parseURL encodeURIComponent tabId url d now st :
  action d = Some "block" ->
  let r := handleBlockedNavigation parseURL encodeURIComponent tabId url d now st in
  let message :=
    Js.or_default (reminder_message d) "This site is blocked during focus time." in
  (encodes encodeURIComponent url message ->
   r.1 = Returned /\
   tabUpdates r.2 = (tabUpdates st ++ [(tabId, BlockedPage url message)])%list) /\
  (~ encodes encodeURIComponent url message -> r = (Threw, st)) /\
  activeDelays r.2 = activeDelays st /\
  (reminder_message d = None \/ reminder_message d = Some "" ->
   message = "This site is blocked during focus time.") /\
  (forall m, reminder_message d = Some m -> m <> "" -> message = m).
Proof.
  intros Ha r message. unfold r. rewrite router_block by assumption.
  unfold showBlockPage. cbv zeta. fold message.
  split; [|split; [|split; [|split]]].
  - intros Henc. rewrite redirectTo_encodes by exact Henc. split; reflexivity.
  - intros Hno. rewrite redirectTo_throws by exact Hno. reflexivity.
  - apply thenLog_redirectTo_windows.
  - intros [H|H]; unfold message; rewrite H; reflexivity.
  - intros m Hm Hne. unfold message, Js.or_default. rewrite Hm.
    destruct (String.eqb_spec m ""); [contradiction|reflexivity].
Qed.

Lemma block_redirects_with_message_witness :
  action blockNow = Some "block" /\
  encodes simpleEncode "https://twitter.com/" "Stay focused" /\
  tabUpdates (handleBlockedNavigation simpleURL simpleEncode 7 "https://twitter.com/"
                blockNow 0 installed).2
  = [(7, BlockedPage "https://twitter.com/" "Stay focused")].
Proof.
  assert (encodes simpleEncode "https://twitter.com/" "Stay focused") as Henc
    by (split; eexists; reflexivity).
  split; [reflexivity|]. split; [exact Henc|].
  destruct (block_redirects_with_message simpleURL simpleEncode 7
              "https://twitter.com/" blockNow 0 installed eq_refl) as (Hok & _).
  destruct (Hok Henc) as [_ Htab]. exact Htab.
Defined.

Lemma thenLog_redirectTo_touches encodeURIComponent tabId url message page a now st :
  let st' :=
    (thenLog (redirectTo encodeURIComponent tabId url message page st) url a now).2 in
  requests st' = requests st /\
  blockCache st' = blockCache st /\
  extensionEnabled st' = extensionEnabled st /\
  sync_enabled st' = sync_enabled st /\
  currentSession st' = currentSession st /\
  badgeText st' = badgeText st /\
  (tabUpdates st' = tabUpdates st \/
   tabUpdates st' = (tabUpdates st ++ [(tabId, page)])%list) /\
  activeDelays st' = activeDelays st.
Proof.
  destruct (redirectTo_cases encodeURIComponent tabId url message page st)
    as [-> | ->]; simpl; repeat split; auto.
Qed.

Lemma router_touches parseURL encodeURIComponent tabId url d now st :
  let st' := (handleBlockedNavigation parseURL encodeURIComponent tabId url d now st).2 in
  requests st' = requests st /\
  blockCache st' = blockCache st /\
  extensionEnabled st' = extensionEnabled st /\
  sync_enabled st' = sync_enabled st /\
  currentSession st' = currentSession st /\
  badgeText st' = badgeText st /\
  (tabUpdates st' = tabUpdates st \/
   exists page, tabUpdates st' = (tabUpdates st ++ [(tabId, page)])%list) /\
  (forall D, (forall u, parseURL url = Some u -> hostname u <> D) ->
     activeDelays st' !! D = activeDelays st !! D).
Proof.
  assert (forall message page a s0,
    requests s0 = requests st -> blockCache s0 = blockCache st ->
    extensionEnabled s0 = extensionEnabled st -> sync_enabled s0 = sync_enabled st ->
    currentSession s0 = currentSession st -> badgeText s0 = badgeText st ->
    tabUpdates s0 = tabUpdates st ->
    (forall D, (forall u, parseURL url = Some u -> hostname u <> D) ->
       activeDelays s0 !! D = activeDelays st !! D) ->
    let st' :=
      (thenLog (redirectTo encodeURIComponent tabId url message page s0) url a now).2 in
    requests st' = requests st /\
    blockCache st' = blockCache st /\
    extensionEnabled st' = extensionEnabled st /\
    sync_enabled st' = sync_enabled st /\
    currentSession st' = currentSession st /\
    badgeText st' = badgeText st /\
    (tabUpdates st' = tabUpdates st \/
     exists page, tabUpdates st' = (tabUpdates st ++ [(tabId, page)])%list) /\
    (forall D, (forall u, parseURL url = Some u -> hostname u <> D) ->
       activeDelays st' !! D = activeDelays st !! D)) as Hshow.
  { intros message page a s0 H1 H2 H3 H4 H5 H6 H7 H8.
    destruct (thenLog_redirectTo_touches encodeURIComponent tabId url message page
                a now s0) as (G1 & G2 & G3 & G4 & G5 & G6 & G7 & G8).
    cbv zeta in *. rewrite G1, G2, G3, G4, G5, G6, G8.
    repeat (split; [assumption|]). split; [|assumption].
    destruct G7 as [-> | ->]; rewrite H7; eauto. }
  unfold handleBlockedNavigation.
  case_decide; [apply Hshow; auto|].
  case_decide.
  - destruct (parseURL url) as [u|] eqn:Hu; [|repeat split; eauto].
    cbv zeta. destruct (stillDelayed (hostname u) now st) as [e|].
    + apply Hshow; auto.
    + apply Hshow; try reflexivity.
      intros D HD. simpl. apply lookup_insert_ne. exact (HD u eq_refl).
  - case_decide; [apply Hshow; auto|repeat split; eauto].
Qed.

(** X7. What the router never does. Whatever the decision, a run of the
    router makes no authority call and leaves the cache, the toggle and its
    stored copy, the session and the badge as they are; it redirects at most
    one tab, the one it was called for; and it changes no delay window but
    that of the target's own domain. *)
Theorem router_footprint parseURL encodeURIComponent tabId url d now st :
  let st' := (handleBlockedNavigation parseURL encodeURIComponent tabId url d now st).2 in
  requests st' = requests st /\
  blockCache st' = blockCache st /\
  extensionEnabled st' = extensionEnabled st /\
  sync_enabled st' = sync_enabled st /\
  currentSession st' = currentSession st /\
  badgeText st' = badgeText st /\
  (tabUpdates st' = tabUpdates st \/
   exists page, tabUpdates st' = (tabUpdates st ++ [(tabId, page)])%list) /\
  (forall D, (forall u, parseURL url = Some u -> hostname u <> D) ->
     activeDelays st' !! D = activeDelays st !! D).
Proof. apply router_touches. Qed.

Lemma navigation_touches parseURL encodeURIComponent details clock net st :
  let st' := (beforeNavigate parseURL encodeURIComponent details clock net st).2 in
  (requests st' = requests st \/
   exists u, parseURL (url details) = Some u /\
     requests st' = (requests st ++ [CheckBlockRequest (href u)])%list) /\
  (tabUpdates st' = tabUpdates st \/
   exists page, tabUpdates st' = (tabUpdates st ++ [(tabId details, page)])%list) /\
  extensionEnabled st' = extensionEnabled st /\
  sync_enabled st' = sync_enabled st.
Proof.
  unfold beforeNavigate. destruct (schemeFilter parseURL details); [|simpl; auto].
  destruct (onBeforeNavigate_filtered parseURL encodeURIComponent details clock net st)
    as [Hsame|[u Hq]].
  { rewrite Hsame. auto. }
  rewrite (onBeforeNavigate_qualifies parseURL encodeURIComponent details clock net
             st u Hq).
  set (lookup := checkBlock (href u) (at_lookup clock) net (at_store clock) st).
  assert ((requests lookup.2 = requests st \/
           requests lookup.2 = (requests st ++ [CheckBlockRequest (href u)])%list) /\
          tabUpdates lookup.2 = tabUpdates st /\
          extensionEnabled lookup.2 = extensionEnabled st /\
          sync_enabled lookup.2 = sync_enabled st) as (Hreq & Htab & Hen & Hsync).
  { unfold lookup, checkBlock.
    destruct (cacheHit (href u) (at_lookup clock) st); [simpl; auto|].
    destruct net as [|[] [j|]]; simpl; auto. }
  assert (parseURL (url details) = Some u) as Hu by apply Hq.
  unfold enforceDecision. destruct lookup.1 as [d|v].
  - destruct (Js.truthy (should_block d)).
    + destruct (router_touches parseURL encodeURIComponent (tabId details) (href u) d
                  (at_enforce clock) lookup.2)
        as (Hr & _ & He & Hs & _ & _ & Ht & _).
      cbv zeta in Hr, He, Hs, Ht. rewrite Hr, He, Hs, Hen, Hsync.
      split; [destruct Hreq as [->| ->]; eauto|].
      split; [|auto]. rewrite <- Htab. exact Ht.
    + simpl. rewrite Htab, Hen, Hsync. split; [|auto].
      destruct Hreq as [->| ->]; eauto.
  - simpl. rewrite Htab, Hen, Hsync. split; [|auto].
    destruct Hreq as [->| ->]; eauto.
Qed.

(** X8. What one navigation can do. A delivered navigation event makes at
    most one authority call, about the target's [href], redirects at most
    one tab, the navigating one, and changes neither the toggle nor its
    stored copy. *)
Theorem navigation_footprint parseURL encodeURIComponent details clock net st :
  let st' := (beforeNavigate parseURL encodeURIComponent details clock net st).2 in
  (requests st' = requests st \/
   exists u, parseURL (url details) = Some u /\
     requests st' = (requests st ++ [CheckBlockRequest (href u)])%list) /\
  (tabUpdates st' = tabUpdates st \/
   exists page, tabUpdates st' = (tabUpdates st ++ [(tabId details, page)])%list) /\
  extensionEnabled st' = extensionEnabled st /\
  sync_enabled st' = sync_enabled st.
Proof. apply navigation_touches. Qed.

(** X9. No fatal error in the interception path, but for the redirect
    parameters. If every [href] the parser produces parses again, and the
    redirect that the decision obtained for the target asks for can be
    encoded whenever that decision is a blocking one, a delivered navigation
    event is handled to the end: the listener does not throw, whatever the
    cache holds and whether or not the authority can be reached. *)
Theorem navigation_never_throws parseURL encodeURIComponent details clock net st :
  (forall s u, parseURL s = Some u -> is_Some (parseURL (href u))) ->
  (forall u d,
     parseURL (url details) = Some u ->
     (checkBlock (href u) (at_lookup clock) net (at_store clock) st).1 = JsonObject d ->
     Js.truthy (should_block d) = true ->
     redirectEncodes encodeURIComponent (href u) d) ->
  (beforeNavigate parseURL encodeURIComponent details clock net st).1 = Returned.
Proof.
  intros Hre Henc. unfold beforeNavigate, schemeFilter.
  destruct (parseURL (url details)) as [u|] eqn:Hu; [|reflexivity].
  destruct (_ || _); [|reflexivity].
  unfold onBeforeNavigate. destruct (_ || _); [reflexivity|].
  rewrite Hu. cbv zeta. destruct (_ || _ || _); [reflexivity|].
  specialize (Henc u).
  destruct (checkBlock _ _ _ _ _) as [j st1].
  unfold enforceDecision. destruct j as [d|v]; [|reflexivity].
  destruct (Js.truthy (should_block d)) eqn:Hb; [|reflexivity].
  apply router_returns.
  - intros _. exact (Hre _ _ Hu).
  - apply Henc; [reflexivity|reflexivity|exact Hb].
Qed.

Lemma simpleURL_href s u : simpleURL s = Some u -> simpleURL (href u) = Some u.
Proof.
  unfold simpleURL. intros H.
  destruct (String.prefix "https://" s) eqn:H1.
  - injection H as <-. simpl. rewrite H1. reflexivity.
  - destruct (String.prefix "http://" s) eqn:H2; [|discriminate].
    injection H as <-. simpl. rewrite H1, H2. reflexivity.
Qed.

Lemma navigation_never_throws_witness :
  (forall s u, simpleURL s = Some u -> is_Some (simpleURL (href u))) /\
  (forall u d,
     simpleURL (url toReddit) = Some u ->
     (checkBlock (href u) 0 (answer delay300) 5 installed).1 = JsonObject d ->
     Js.truthy (should_block d) = true ->
     redirectEncodes simpleEncode (href u) d) /\
  (beforeNavigate simpleURL simpleEncode toReddit (mkClock 0 5 6) (answer delay300)
     installed).1 = Returned.
Proof.
  assert (forall s u, simpleURL s = Some u -> is_Some (simpleURL (href u))) as Hre
    by (intros s u H; exists u; exact (simpleURL_href s u H)).
  assert (forall u d,
     simpleURL (url toReddit) = Some u ->
     (checkBlock (href u) 0 (answer delay300) 5 installed).1 = JsonObject d ->
     Js.truthy (should_block d) = true ->
     redirectEncodes simpleEncode (href u) d) as Henc.
  { intros u d [= <-] [= <-] _ m [= <-]. split; eexists; reflexivity. }
  split; [exact Hre|]. split; [exact Henc|].
  apply (navigation_never_throws simpleURL simpleEncode toReddit (mkClock 0 5 6)
           (answer delay300) installed Hre Henc).
Defined.

(** ** Invariants of the event loop *)

Section EventLoop.

Variable parseURL : string -> option URL.
Variable encodeURIComponent : string -> option string.

Lemma run_app events events' st :
  run parseURL encodeURIComponent (events ++ events') st
  = run parseURL encodeURIComponent events' (run parseURL encodeURIComponent events st).
Proof. apply foldl_app. Qed.

Lemma run_preserves (P : State -> Prop) (allowed : Event -> Prop) :
  (forall e st, allowed e -> P st -> P (handle parseURL encodeURIComponent e st)) ->
  forall events st, Forall allowed events -> P st ->
    P (run parseURL encodeURIComponent events st).
Proof.
  intros Hstep events. induction events as [|e events IH]; intros st Hall HP.
  - exact HP.
  - inversion Hall as [|? ? He Hrest]; subst.
    apply IH; [exact Hrest|]. apply Hstep; assumption.
Qed.

Lemma logWithin_same st st' :
  local_blockEvents st' = local_blockEvents st ->
  pendingRecords st' = pendingRecords st ->
  logWithin st -> logWithin st'.
Proof. unfold logWithin, storedEvents. intros -> ->. auto. Qed.

(** A navigation writes nothing to storage; it leaves at most one new
    record, not yet served, waiting. *)
Lemma navigation_log details clock net st :
  let st' := (beforeNavigate parseURL encodeURIComponent details clock net st).2 in
  local_blockEvents st' = local_blockEvents st /\
  (pendingRecords st' = pendingRecords st \/
   exists event,
     pendingRecords st' = (pendingRecords st ++ [mkPendingRecord event None])%list).
Proof.
  cbv zeta. unfold beforeNavigate.
  destruct (schemeFilter parseURL details); [|auto].
  destruct (onBeforeNavigate_filtered parseURL encodeURIComponent details clock net st)
    as [Hsame|[u Hq]]; [rewrite Hsame; auto|].
  rewrite (onBeforeNavigate_qualifies parseURL encodeURIComponent details clock net
             st u Hq).
  pose proof (checkBlock_frame (href u) (at_lookup clock) net (at_store clock) st)
    as (_ & _ & Hl & _ & Hp). cbv zeta in Hl, Hp.
  unfold enforceDecision.
  destruct (checkBlock _ _ _ _ _).1 as [d|v]; [|auto].
  destruct (Js.truthy (should_block d)); [|auto].
  pose proof (router_outcome parseURL encodeURIComponent (tabId details) (href u) d
                (at_enforce clock)
                (checkBlock (href u) (at_lookup clock) net (at_store clock) st).2)
    as (Hl' & Hret & Hthrew). cbv zeta in Hl', Hret, Hthrew.
  rewrite Hl', Hl. split; [reflexivity|].
  destruct (handleBlockedNavigation _ _ _ _ _ _ _).1.
  - right. rewrite (Hret eq_refl), Hp. eauto.
  - left. destruct (Hthrew eq_refl) as [-> _]. exact Hp.
Qed.

Lemma message_keeps_log request now net st :
  local_blockEvents (onMessage parseURL request now net st).1.2 = local_blockEvents st /\
  pendingRecords (onMessage parseURL request now net st).1.2 = pendingRecords st.
Proof.
  destruct request as [| |u| | |]; try (split; reflexivity); simpl.
  - destruct (parseURL u); [|split; reflexivity]. simpl.
    destruct net; split; reflexivity.
  - destruct net as [|[] []]; split; reflexivity.
  - destruct net as [|[] []]; split; reflexivity.
Qed.

Lemma statusTick_keeps_log net st :
  local_blockEvents (statusTick net st) = local_blockEvents st /\
  pendingRecords (statusTick net st) = pendingRecords st.
Proof.
  unfold statusTick.
  destruct net as [|[] [[s|[]]|]]; try (split; reflexivity);
    unfold updateBadge; destruct (activelyCoding _); split; reflexivity.
Qed.

Lemma elem_of_insert_inv {A} (l : list A) (i : nat) (x y : A) :
  y ∈ <[i := x]> l -> y = x \/ y ∈ l.
Proof.
  intros [j Hj]%list_elem_of_lookup.
  apply list_lookup_insert_Some in Hj as [(_ & -> & _)|[_ Hj]]; [auto|].
  right. apply list_elem_of_lookup. eauto.
Qed.

Lemma storageRead_logWithin i st : logWithin st -> logWithin (storageRead i st).
Proof.
  intros [Hstored Hpending]. unfold storageRead.
  destruct (pendingRecords st !! i) as [[event [result|]]|]; try (split; assumption).
  split; [exact Hstored|]. simpl. intros p r Hin Hr.
  apply elem_of_insert_inv in Hin as [->|Hin]; [|eauto].
  simpl in Hr. injection Hr as <-. exact Hstored.
Qed.

Lemma storageCallback_logWithin i st : logWithin st -> logWithin (storageCallback i st).
Proof.
  intros [Hstored Hpending]. unfold storageCallback.
  destruct (pendingRecords st !! i) as [[event [result|]]|] eqn:Hi;
    try (split; assumption).
  split.
  - unfold storedEvents. simpl. apply pushEvent_bounded.
    apply (Hpending (mkPendingRecord event (Some result))); [|reflexivity].
    apply list_elem_of_lookup. eauto.
  - simpl. intros p r Hin Hr. apply list_elem_of_delete_inv in Hin. eauto.
Qed.

Lemma handle_logWithin e st :
  logWithin st -> logWithin (handle parseURL encodeURIComponent e st).
Proof.
  intros Hst.
  destruct e as [details clock net|request now net|name|menuItemId|net|i|i| |]; simpl.
  - destruct (navigation_log details clock net st) as [Hl [Hp|[event Hp]]];
      cbv zeta in Hl, Hp.
    + exact (logWithin_same _ _ Hl Hp Hst).
    + destruct Hst as [Hstored Hpending]. split.
      * unfold storedEvents. rewrite Hl. exact Hstored.
      * rewrite Hp. intros p r Hin Hr.
        apply elem_of_app in Hin as [Hin|Hin]; [eauto|].
        apply list_elem_of_singleton in Hin as ->. discriminate.
  - destruct (message_keeps_log request now net st) as [Hl Hp].
    exact (logWithin_same _ _ Hl Hp Hst).
  - apply (logWithin_same st); [| |exact Hst];
      unfold onAlarm; destruct (String.prefix _ _); reflexivity.
  - apply (logWithin_same st); [| |exact Hst];
      unfold onContextMenu; (destruct (String.eqb _ _); [|reflexivity]);
      unfold updateBadge; destruct (_ && _); reflexivity.
  - destruct (statusTick_keeps_log net st) as [Hl Hp].
    exact (logWithin_same _ _ Hl Hp Hst).
  - apply storageRead_logWithin. exact Hst.
  - apply storageCallback_logWithin. exact Hst.
  - destruct Hst as [Hstored _]. split.
    + unfold storedEvents, onInstalled in *. simpl.
      destruct (negb _); destruct (String.eqb _ _); exact Hstored.
    + unfold onInstalled. simpl.
      destruct (negb _); destruct (String.eqb _ _); simpl;
        intros p r Hin; apply elem_of_nil in Hin; contradiction.
  - destruct Hst as [Hstored _]. split; [exact Hstored|].
    simpl. intros p r Hin. apply elem_of_nil in Hin. contradiction.
Qed.

(** X10. The bound on the event log is an invariant of the whole worker:
    starting with at most 100 entries in the stored log, and in every list
    already handed to a waiting storage callback, no sequence of navigations,
    messages, alarms, menu clicks, status polls, storage reads and callbacks
    in any order, installs and worker restarts ever leaves more than 100
    entries in storage. *)
Theorem event_log_bounded_forever events st :
  logWithin st ->
  (length (storedEvents (run parseURL encodeURIComponent events st)) <= 100)%nat.
Proof.
  intros Hst.
  apply (run_preserves logWithin (fun _ => True));
    [|apply Forall_true; done|exact Hst].
  intros e s _ Hs. apply handle_logWithin. exact Hs.
Qed.



End EventLoop.


Lemma event_log_bounded_forever_witness :
  logWithin emptyProfile /\
  (length (storedEvents
     (run simpleURL simpleEncode
        [InstalledOrUpdated;
         Navigation toReddit (mkClock 10 11 12) (answer blockNow);
         Navigation toReddit (mkClock 20 21 22) (answer delay10);
         StorageReadServed 0; StorageReadServed 1;
         StorageCallbackRun 0; StorageCallbackRun 0;
         WorkerStarted;
         Navigation toReddit (mkClock 50 51 52) (answer delay10);
         StorageReadServed 0; StorageCallbackRun 0]
        emptyProfile)) <= 100)%nat.
Proof.
  assert (logWithin emptyProfile) as H.
  { split; [simpl; lia|]. intros p r Hin. apply elem_of_nil in Hin. contradiction. }
  split; [exact H|].
  apply (event_log_bounded_forever simpleURL simpleEncode _ emptyProfile H).
Defined.

Section CacheProvenance.

Variable parseURL : string -> option URL.
Variable encodeURIComponent : string -> option string.

Lemma cacheAsked_step st st' :
  cacheAsked st ->
  (forall url c, blockCache st' !! url = Some c ->
     is_Some (blockCache st !! url) \/ CheckBlockRequest url ∈ requests st') ->
  (forall r, r ∈ requests st -> r ∈ requests st') ->
  cacheAsked st'.
Proof.
  intros Hst Hcache Hreq url c Hc.
  destruct (Hcache url c Hc) as [[c' Hc']|H]; [|exact H].
  apply Hreq. exact (Hst url c' Hc').
Qed.

Lemma cacheAsked_checkBlock url now net now_resp st :
  cacheAsked st -> cacheAsked (checkBlock url now net now_resp st).2.
Proof.
  intros Hst. unfold checkBlock.
  destruct (cacheHit url now st); [exact Hst|].
  apply (cacheAsked_step st); [exact Hst| |].
  - intros url' c Hc.
    destruct (decide (url' = url)) as [->|Hne].
    + right. destruct net as [|[] [j|]]; simpl; set_solver.
    + left. destruct net as [|[] [j|]]; simpl in Hc; eauto.
      rewrite lookup_insert_ne in Hc by congruence. eauto.
  - intros r Hr. destruct net as [|[] [j|]]; simpl; set_solver.
Qed.

Lemma cacheAsked_handle e st :
  cacheAsked st -> cacheAsked (handle parseURL encodeURIComponent e st).
Proof.
  intros Hst.
  destruct e as [details clock net|request now net|name|menuItemId|net|i|i| |]; simpl.
  - unfold beforeNavigate. destruct (schemeFilter parseURL details); [|exact Hst].
    destruct (onBeforeNavigate_filtered parseURL encodeURIComponent details clock net st)
      as [Hsame|[u Hq]]; [rewrite Hsame; exact Hst|].
    rewrite (onBeforeNavigate_qualifies parseURL encodeURIComponent details clock net st u Hq).
    pose proof (cacheAsked_checkBlock (href u) (at_lookup clock) net
                  (at_store clock) st Hst) as Hlookup.
    destruct (enforceDecision_frame parseURL encodeURIComponent (tabId details) (href u)
                (checkBlock (href u) (at_lookup clock) net (at_store clock) st).1
                (at_enforce clock)
                (checkBlock (href u) (at_lookup clock) net (at_store clock) st).2)
      as [Hr Hc].
    intros url' c. rewrite Hr, Hc. apply Hlookup.
  - destruct request as [| |u| | |]; try exact Hst; simpl.
    + destruct (parseURL u); [|exact Hst]. simpl.
      apply (cacheAsked_step st); [exact Hst| |].
      * intros url' c Hc. left.
        assert (delete u (blockCache st) !! url' = Some c) as Hd
          by (destruct net; exact Hc).
        apply lookup_delete_Some in Hd. destruct Hd as [_ Hd]. eauto.
      * intros r Hr. destruct net; simpl; set_solver.
    + apply (cacheAsked_step st); [exact Hst| |].
      * intros url' c Hc. left. destruct net as [|[] []]; eauto.
      * intros r Hr. destruct net as [|[] []]; simpl; set_solver.
    + apply (cacheAsked_step st); [exact Hst| |].
      * intros url' c Hc. left. destruct net as [|[] []]; eauto.
      * intros r Hr. destruct net as [|[] []]; simpl; set_solver.
  - unfold onAlarm. destruct (String.prefix _ _); exact Hst.
  - unfold onContextMenu. destruct (String.eqb _ _); [|exact Hst].
    unfold updateBadge. destruct (_ && _); exact Hst.
  - apply (cacheAsked_step st); [exact Hst| |].
    + intros url' c Hc. left.
      assert (blockCache (statusTick net st) = blockCache st) as Hsame; [|rewrite <- Hsame; eauto].
      unfold statusTick, updateBadge.
      destruct net as [|[] [[s|[]]|]]; simpl; try reflexivity;
        destruct (is_actively_coding s); reflexivity.
    + intros r Hr.
      assert (requests (statusTick net st) = (requests st ++ [StatusRequest])%list)
        as ->; [|set_solver].
      unfold statusTick, updateBadge.
      destruct net as [|[] [[s|[]]|]]; simpl; try reflexivity;
        destruct (is_actively_coding s); reflexivity.
  - unfold storageRead.
    destruct (pendingRecords st !! i) as [[event [result|]]|]; exact Hst.
  - unfold storageCallback.
    destruct (pendingRecords st !! i) as [[event [result|]]|]; exact Hst.
  - intros url' c Hc. unfold onInstalled in Hc. simpl in Hc.
    destruct (negb _), (String.eqb _ _); simpl in Hc;
      rewrite lookup_empty in Hc; discriminate.
  - intros url' c Hc. simpl in Hc. rewrite lookup_empty in Hc. discriminate.
Qed.

(** X12. Only the authority fills the cache. From a worker start on,
    through any events, every target that has a cache entry is one for which
    a [check-block] request was sent. *)
Theorem cache_holds_only_asked_targets events st target entry :
  blockCache (run parseURL encodeURIComponent (WorkerStarted :: events) st) !! target = Some entry ->
  CheckBlockRequest target ∈ requests (run parseURL encodeURIComponent (WorkerStarted :: events) st).
Proof.
  revert target entry. fold (cacheAsked (run parseURL encodeURIComponent (WorkerStarted :: events) st)).
  change (run parseURL encodeURIComponent (WorkerStarted :: events) st)
    with (run parseURL encodeURIComponent events (handle parseURL encodeURIComponent WorkerStarted st)).
  apply (run_preserves parseURL encodeURIComponent cacheAsked (fun _ => True)).
  - intros e s _. apply cacheAsked_handle.
  - apply Forall_true. done.
  - intros url c Hc. simpl in Hc. rewrite lookup_empty in Hc. discriminate.
Qed.

End CacheProvenance.

Lemma cache_holds_only_asked_targets_witness :
  let events := [InstalledOrUpdated;
                 Navigation toReddit (mkClock 0 5 6) (answer delay10)] in
  blockCache (run simpleURL simpleEncode (WorkerStarted :: events) emptyProfile) !! reddit
    = Some (mkCacheEntry (JsonObject delay10) 5) /\
  CheckBlockRequest reddit
    ∈ requests (run simpleURL simpleEncode (WorkerStarted :: events) emptyProfile).
Proof.
  cbv zeta.
  assert (blockCache (run simpleURL simpleEncode
            [WorkerStarted; InstalledOrUpdated;
             Navigation toReddit (mkClock 0 5 6) (answer delay10)] emptyProfile)
          !! reddit = Some (mkCacheEntry (JsonObject delay10) 5)) as Hc
    by (vm_compute; reflexivity).
  split; [exact Hc|].
  exact (cache_holds_only_asked_targets simpleURL simpleEncode _ emptyProfile reddit _ Hc).
Defined.

(** ** Alarms, polling, menu, install, messages *)

(** X13. An alarm whose name does not start with [delay-] changes nothing.
    The alarm [delay-D] removes the window of [D] and of no other domain and
    announces that [D] is accessible; it leaves the decision cache as it is,
    so a decision cached for a target on [D] outlives the window. *)
Theorem alarm_removes_only_its_window name st :
  let st' := onAlarm name st in
  (String.prefix "delay-" name = false -> st' = st) /\
  (forall domain, name = "delay-" +:+ domain ->
     activeDelays st' = delete domain (activeDelays st) /\
     (forall D, D <> domain -> activeDelays st' !! D = activeDelays st !! D) /\
     notifications st' = (notifications st ++ [domain +:+ " is now accessible."])%list /\
     blockCache st' = blockCache st /\
     tabUpdates st' = tabUpdates st /\
     requests st' = requests st).
Proof.
  cbv zeta. split.
  - intros H. unfold onAlarm. rewrite H. reflexivity.
  - intros domain ->. unfold onAlarm. rewrite prefix_app.
    pose proof (substring_after_prefix "delay-" domain) as Hs.
    change (String.length "delay-") with 6%nat in Hs. rewrite Hs.
    repeat (split; [reflexivity|]). split; [|repeat split; reflexivity].
    intros D HD. simpl. apply lookup_delete_ne. congruence.
Qed.

(** X14. One tick of the status poller sends one status request. If the
    request is rejected, answered with an error status or with a body that
    is not JSON, the session and the badge keep their last values. If it is
    answered with JSON, that value replaces the session, whatever it is: for
    [null] the badge stays as it was and the failure is logged; for any other
    value the badge shows [ON] exactly when the value reports active coding,
    whether or not the extension is enabled. The tick never touches cache,
    windows, toggle or event log. *)
Theorem status_poll_updates_indicator net st :
  let st' := statusTick net st in
  requests st' = (requests st ++ [StatusRequest])%list /\
  blockCache st' = blockCache st /\ activeDelays st' = activeDelays st /\
  extensionEnabled st' = extensionEnabled st /\
  local_blockEvents st' = local_blockEvents st /\
  pendingRecords st' = pendingRecords st /\
  (forall body, net = FetchResponse true (Some body) ->
     currentSession st' = body /\
     (body = SessionPrimitive Js.null \/ body = SessionPrimitive Js.undefined ->
      badgeText st' = badgeText st /\
      console_errors st'
        = (console_errors st ++ ["Failed to get session status:"])%list) /\
     (body <> SessionPrimitive Js.null -> body <> SessionPrimitive Js.undefined ->
      badgeText st' = (if activelyCoding body then "ON" else "") /\
      console_errors st' = console_errors st)) /\
  ((forall body, net <> FetchResponse true (Some body)) ->
     currentSession st' = currentSession st /\ badgeText st' = badgeText st).
Proof.
  cbv zeta.
  split; [|split; [|split; [|split; [|split; [|split; [|split]]]]]].
  1-6: unfold statusTick, updateBadge;
    destruct net as [|[] [[s|[]]|]]; simpl; try reflexivity;
    destruct (is_actively_coding s); reflexivity.
  - intros body ->. unfold statusTick. destruct body as [s|v].
    + simpl. unfold updateBadge.
      destruct (is_actively_coding s); simpl;
        (split; [reflexivity|]; split;
         [intros [H|H]; discriminate | intros _ _; split; reflexivity]).
    + destruct v; simpl;
        (split; [reflexivity|]; split;
         [intros [H|H]; first [discriminate | split; reflexivity]
         |intros H1 H2; first [contradiction | split; reflexivity]]).
  - intros Hne. unfold statusTick.
    destruct net as [|[] [body|]]; try (split; reflexivity).
    exfalso. apply (Hne body). reflexivity.
Qed.

Example status_poll_null_body :
  let st' := statusTick (FetchResponse true (Some (SessionPrimitive Js.null)))
               installed in
  currentSession st' = SessionPrimitive Js.null /\
  badgeText st' = badgeText installed /\
  console_errors st' = ["Failed to get session status:"].
Proof. repeat split; reflexivity. Qed.

(** X15. A click on any other menu item changes nothing. A click on
    [toggle-focus-mode] flips the toggle, stores the new value, and sets the
    badge to [ON] exactly when the extension is now enabled and the last
    polled session reports active coding; cache and windows are kept. *)
Theorem menu_click_toggles_and_sets_badge menuItemId st :
  let st' := onContextMenu menuItemId st in
  (menuItemId <> "toggle-focus-mode" -> st' = st) /\
  (menuItemId = "toggle-focus-mode" ->
     extensionEnabled st' = negb (extensionEnabled st) /\
     sync_enabled st' = Some (negb (extensionEnabled st)) /\
     badgeText st' =
       (if negb (extensionEnabled st)
           && activelyCoding (currentSession st)
        then "ON" else "") /\
     blockCache st' = blockCache st /\ activeDelays st' = activeDelays st).
Proof.
  cbv zeta. unfold onContextMenu. split.
  - intros Hne. destruct (String.eqb_spec menuItemId "toggle-focus-mode");
      [contradiction|reflexivity].
  - intros ->. simpl. unfold updateBadge.
    destruct (negb (extensionEnabled st) && _); repeat split; reflexivity.
Qed.

(** X16. The install handler only writes defaults to storage: afterwards
    [enabled] is stored as [true] (a stored [false] is overwritten), a
    non-empty stored [apiUrl] is kept and a missing or empty one becomes the
    default base URL. Running it again changes nothing more, and it never
    touches the toggle in memory, the cache, the windows or the event log. *)
Theorem install_writes_defaults st :
  let st' := onInstalled st in
  sync_enabled st' = Some true /\
  (forall a, sync_apiUrl st = Some a -> a <> "" -> sync_apiUrl st' = Some a) /\
  (sync_apiUrl st = None \/ sync_apiUrl st = Some "" ->
   sync_apiUrl st' = Some "http://localhost:5000") /\
  onInstalled st' = st' /\
  extensionEnabled st' = extensionEnabled st /\
  blockCache st' = blockCache st /\ activeDelays st' = activeDelays st /\
  local_blockEvents st' = local_blockEvents st.
Proof.
  cbv zeta.
  assert (forall s : State,
    sync_enabled (onInstalled s) = Some true /\
    sync_apiUrl (onInstalled s)
      = (if String.eqb (default "" (sync_apiUrl s)) ""
         then Some API_BASE_URL else sync_apiUrl s) /\
    extensionEnabled (onInstalled s) = extensionEnabled s /\
    blockCache (onInstalled s) = blockCache s /\
    activeDelays (onInstalled s) = activeDelays s /\
    local_blockEvents (onInstalled s) = local_blockEvents s) as Hfields.
  { intros s. unfold onInstalled.
    destruct (sync_enabled s) as [[]|] eqn:He; simpl;
      destruct (String.eqb (default "" (sync_apiUrl s)) ""); simpl;
      rewrite ?He; repeat split; reflexivity. }
  destruct (Hfields st) as (He & Ha & Hflag & Hc & Hd & Hl).
  split; [exact He|]. split.
  { intros a Hsome Hne. rewrite Ha, Hsome. simpl.
    destruct (String.eqb_spec a ""); [contradiction|reflexivity]. }
  split.
  { intros [H|H]; rewrite Ha, H; reflexivity. }
  split; [|auto].
  unfold onInstalled at 1. rewrite He. simpl. rewrite Ha.
  destruct (String.eqb (default "" (sync_apiUrl st)) "") eqn:Hempty.
  - reflexivity.
  - rewrite Hempty. reflexivity.
Qed.

Section MessageProperties.

Variable parseURL : string -> option URL.
Variable encodeURIComponent : string -> option string.

Lemma override_state url now net st u :
  parseURL url = Some u ->
  onMessage parseURL (overrideBlock url) now net st =
  (Returned,
   logOverride url now net
     (set_blockCache (delete url) (set_activeDelays (delete (hostname u)) st)),
   Some SuccessResponse).
Proof. intros Hu. unfold onMessage. rewrite Hu. reflexivity. Qed.

Lemma logOverride_fields url now net st :
  let st' := logOverride url now net st in
  requests st' = (requests st ++ [OverrideRequest url now])%list /\
  blockCache st' = blockCache st /\ activeDelays st' = activeDelays st /\
  extensionEnabled st' = extensionEnabled st /\
  sync_enabled st' = sync_enabled st /\
  tabUpdates st' = tabUpdates st /\
  local_blockEvents st' = local_blockEvents st.
Proof. unfold logOverride. destruct net; done. Qed.

(** X17. Two toggle messages in a row bring the toggle back: each answer
    reports the value just set, afterwards flag and stored value are the
    original flag, and cache, delay windows and event log have not been
    touched, so windows and cached decisions survive a disable/enable
    cycle. *)
Theorem toggle_twice_restores now now' net net' st :
  let r1 := onMessage parseURL toggleExtension now net st in
  let r2 := onMessage parseURL toggleExtension now' net' r1.1.2 in
  r1.2 = Some (EnabledResponse (negb (extensionEnabled st))) /\
  r2.2 = Some (EnabledResponse (extensionEnabled st)) /\
  extensionEnabled r2.1.2 = extensionEnabled st /\
  sync_enabled r2.1.2 = Some (extensionEnabled st) /\
  blockCache r2.1.2 = blockCache st /\
  activeDelays r2.1.2 = activeDelays st /\
  local_blockEvents r2.1.2 = local_blockEvents st.
Proof.
  cbv zeta. simpl. rewrite negb_involutive. repeat split; reflexivity.
Qed.

(** X18. After an override the target is evaluated afresh. Once the user
    has overridden a target, the next qualifying navigation to it finds no
    cache entry and sends a [check-block] request right after the override
    report, however recently a decision for it had been cached; a successful
    answer is what gets cached. *)
Theorem override_then_navigation_asks_again
    details clock net now net_o st u u' :
  qualifies parseURL details st u ->
  parseURL (href u) = Some u' ->
  let st1 := (onMessage parseURL (overrideBlock (href u)) now net_o st).1.2 in
  let r := onBeforeNavigate parseURL encodeURIComponent details clock net st1 in
  activeDelays st1 !! hostname u' = None /\
  requests r.2 =
    (requests st ++ [OverrideRequest (href u) now; CheckBlockRequest (href u)])%list /\
  (forall j, net = FetchResponse true (Some j) ->
     blockCache r.2 !! href u = Some (mkCacheEntry j (at_store clock))).
Proof.
  intros Hq Hu' st1 r.
  assert (st1 = logOverride (href u) now net_o
                  (set_blockCache (delete (href u))
                     (set_activeDelays (delete (hostname u')) st))) as Hst1
    by (unfold st1; rewrite (override_state _ _ _ _ u' Hu'); reflexivity).
  destruct (logOverride_fields (href u) now net_o
              (set_blockCache (delete (href u))
                 (set_activeDelays (delete (hostname u')) st)))
    as (Hreq & Hcache & Hdel & Hen & _).
  cbv zeta in Hreq, Hcache, Hdel, Hen. rewrite <- Hst1 in Hreq, Hcache, Hdel, Hen.
  simpl in Hreq, Hcache, Hdel, Hen.
  assert (qualifies parseURL details st1 u) as Hq1.
  { destruct Hq as (? & ? & ?). repeat split; try tauto. rewrite Hen. assumption. }
  assert (cacheHit (href u) (at_lookup clock) st1 = None) as Hmiss.
  { unfold cacheHit. rewrite Hcache, lookup_delete_eq. reflexivity. }
  split; [rewrite Hdel; apply lookup_delete_eq|].
  unfold r. rewrite (onBeforeNavigate_qualifies parseURL encodeURIComponent details clock net st1 u Hq1).
  set (lookup := checkBlock (href u) (at_lookup clock) net (at_store clock) st1).
  destruct (enforceDecision_frame parseURL encodeURIComponent (tabId details) (href u) lookup.1
              (at_enforce clock) lookup.2) as [Hr Hc].
  cbv zeta in Hr, Hc. rewrite Hr, Hc. split.
  - unfold lookup, checkBlock. rewrite Hmiss.
    destruct net as [|[] [j|]]; simpl; rewrite Hreq, <- app_assoc; reflexivity.
  - intros j ->. unfold lookup.
    rewrite checkBlock_miss_answered by assumption. simpl.
    apply lookup_insert_eq.
Qed.

(** X19. What a message can change. No message redirects a tab, writes to
    the event log or leaves a record waiting for it. Only [toggleExtension] changes the toggle or its stored
    copy; only [overrideBlock] changes the cache or the delay windows.
    [getStatus] answers the current toggle and session and changes nothing;
    a message the worker has no case for (such as the content script's
    [checkUrl]) changes nothing and gets no answer. *)
Theorem message_footprint request now net st :
  let r := onMessage parseURL request now net st in
  tabUpdates r.1.2 = tabUpdates st /\
  local_blockEvents r.1.2 = local_blockEvents st /\
  pendingRecords r.1.2 = pendingRecords st /\
  (request <> toggleExtension ->
     extensionEnabled r.1.2 = extensionEnabled st /\
     sync_enabled r.1.2 = sync_enabled st) /\
  ((forall u, request <> overrideBlock u) ->
     blockCache r.1.2 = blockCache st /\ activeDelays r.1.2 = activeDelays st) /\
  (request = getStatus ->
     r = (Returned, st, Some (StatusResponse (extensionEnabled st) (currentSession st)))) /\
  (request = otherMessage -> r = (Returned, st, None)).
Proof.
  cbv zeta. destruct request as [| |u| | |]; simpl;
    try destruct (parseURL u) as [u'|]; try destruct net as [|[] []]; simpl;
    repeat split; intros;
    first [ reflexivity | discriminate | contradiction
          | match goal with
            | Hx : forall w : string, overrideBlock ?v <> overrideBlock w |- _ =>
                exfalso; exact (Hx v eq_refl)
            end ].
Qed.

End MessageProperties.

Lemma override_then_navigation_asks_again_witness :
  qualifies simpleURL toReddit delayed10 redditURL /\
  simpleURL (href redditURL) = Some redditURL /\
  let st1 := (onMessage simpleURL (overrideBlock reddit) 7000 FetchRejected delayed10).1.2 in
  requests (onBeforeNavigate simpleURL simpleEncode toReddit (mkClock 8000 8001 8002)
              (answer blockNow) st1).2
  = [CheckBlockRequest reddit; OverrideRequest reddit 7000; CheckBlockRequest reddit].
Proof.
  assert (qualifies simpleURL toReddit delayed10 redditURL) as Hq
    by (repeat split; (reflexivity || discriminate)).
  split; [exact Hq|]. split; [reflexivity|].
  destruct (override_then_navigation_asks_again simpleURL simpleEncode toReddit
              (mkClock 8000 8001 8002) (answer blockNow) 7000 FetchRejected
              delayed10 redditURL redditURL Hq eq_refl) as (_ & Hreq & _).
  cbv zeta. simpl href in Hreq. fold reddit in Hreq. rewrite Hreq.
  vm_compute. reflexivity.
Defined.

(** * Properties of the content script and the popup *)

Module ContentFacts.
Import Content.

Lemma tidy_clear p : tidy p -> tidy (clearCountdownInterval p).
Proof.
  intros Htidy. unfold clearCountdownInterval.
  destruct (countdownInterval p) as [id|] eqn:Hci; [|exact Htidy].
  destruct Htidy as (Hb & Ho & Ha).
  split; [exact Hb|]. split; [exact Ho|].
  intros k Hk. simpl in *. rewrite <- Hci. apply Ha.
  apply elem_of_difference in Hk as [Hk _]. exact Hk.
Qed.

Lemma activeIntervals_clear p :
  tidy p -> activeIntervals (clearCountdownInterval p) = ∅.
Proof.
  intros (_ & _ & Ha). unfold clearCountdownInterval.
  destruct (countdownInterval p) as [id|] eqn:Hci; simpl.
  - apply set_eq. intros k. split; [|set_solver].
    intros Hk. apply elem_of_difference in Hk as [Hk Hne].
    specialize (Ha k Hk). injection Ha as ->. set_solver.
  - apply set_eq. intros k. split; [|set_solver].
    intros Hk. specialize (Ha k Hk). discriminate.
Qed.

(** After [removeOverlay] nothing of the overlay is left. *)
Lemma removeOverlay_clean p :
  tidy p ->
  let p' := removeOverlay p in
  overlayElement p' = None /\ countdownInterval p' = None /\
  bodyOverlays p' = [] /\ activeIntervals p' = ∅ /\
  (is_Some (overlayElement p) -> bodyOverflow p' = "") /\
  (overlayElement p = None -> bodyOverflow p' = bodyOverflow p) /\
  closures p' = closures p /\ nextTimer p' = nextTimer p /\
  pendingReloads p' = pendingReloads p /\ reloads p' = reloads p /\
  created p' = created p.
Proof.
  intros Htidy. pose proof (activeIntervals_clear p Htidy) as Hclear.
  destruct Htidy as ([Hb|Hb] & Ho & Ha); cbv zeta;
    unfold removeOverlay, clearCountdownInterval in *;
    destruct (overlayElement p) as [o|] eqn:Hov; simpl in *;
    destruct (countdownInterval p) as [id|] eqn:Hci; simpl in *.
  all: rewrite ?Hci; simpl; rewrite ?Hb; simpl.
  all: repeat split; try done.
  all: try (rewrite filter_cons_False by (intros H; apply H; reflexivity);
            reflexivity).
  all: intros [? [=]].
Qed.

Lemma tidy_removeOverlay p : tidy p -> tidy (removeOverlay p).
Proof.
  intros Htidy.
  destruct (removeOverlay_clean p Htidy) as (Ho & Hc & Hb & Ha & _).
  cbv zeta in *. split; [left; exact Hb|]. split.
  - rewrite Hb. intros H. contradiction.
  - intros k. rewrite Ha. set_solver.
Qed.

Lemma tidy_updateCountdown k p : tidy p -> tidy (updateCountdown k p).
Proof.
  intros Htidy. unfold updateCountdown.
  destruct (closures p !! k) as [c|]; [|exact Htidy].
  case_bool_decide.
  - destruct (tidy_clear p Htidy) as (Hb & Ho & Ha). repeat split; assumption.
  - destruct Htidy as (Hb & Ho & Ha). repeat split; assumption.
Qed.

Lemma updateCountdown_frame k p :
  let p' := updateCountdown k p in
  overlayElement p' = overlayElement p /\ countdownInterval p' = countdownInterval p /\
  bodyOverlays p' = bodyOverlays p /\ bodyOverflow p' = bodyOverflow p /\
  nextTimer p' = nextTimer p /\ created p' = created p /\ reloads p' = reloads p /\
  activeIntervals p' ⊆ activeIntervals p.
Proof.
  cbv zeta. unfold updateCountdown, clearCountdownInterval.
  destruct (closures p !! k) as [c|]; [|done].
  case_bool_decide; [|done].
  destruct (countdownInterval p) eqn:Hci; simpl; rewrite ?Hci;
    repeat split; try done.
  intros j Hj. apply elem_of_difference in Hj as [Hj _]. exact Hj.
Qed.

Lemma startCountdown_fields secs p :
  countdownInterval p = None -> activeIntervals p = ∅ ->
  let p' := startCountdown secs p in
  overlayElement p' = overlayElement p /\ bodyOverlays p' = bodyOverlays p /\
  bodyOverflow p' = bodyOverflow p /\
  countdownInterval p' = Some (nextTimer p) /\
  activeIntervals p' = {[nextTimer p]} /\
  nextTimer p' = S (nextTimer p) /\ created p' = created p /\
  reloads p' = reloads p.
Proof.
  intros Hci Ha. cbv zeta.
  unfold startCountdown, updateCountdown, clearCountdownInterval. simpl.
  rewrite lookup_insert_eq. simpl.
  case_bool_decide; simpl; rewrite ?Hci; simpl; rewrite Ha;
    repeat split; try reflexivity; apply (left_id_L ∅ (∪)).
Qed.

(** What a [createOverlay] that runs to its end leaves. *)
Lemma createOverlay_shown message options opts p :
  tidy p ->
  (options = optionsUndefined /\ opts = noOptions \/ options = optionsGiven opts) ->
  let r := createOverlay message options p in
  r.1 = Returned /\
  exists o c,
    bodyOverlays r.2 = [o] /\ overlayElement r.2 = Some o /\
    content o = Some c /\
    Content.message c = message /\ overrideBtn c = allowOverride opts /\
    bodyOverflow r.2 = "hidden" /\
    (given (countdown opts) = false ->
       countdownEl c = None /\ activeIntervals r.2 = ∅ /\
       countdownInterval r.2 = None) /\
    (given (countdown opts) = true ->
       countdownEl c = Some (nextTimer p) /\
       activeIntervals r.2 = {[nextTimer p]} /\
       countdownInterval r.2 = Some (nextTimer p)).
Proof.
  intros Htidy Hopts.
  destruct (removeOverlay_clean p Htidy) as (_ & Hc & Hb & Ha & _ & _ & _ & Hnt & _).
  cbv zeta in Hc, Hb, Ha, Hnt. cbv zeta.
  assert (createOverlay message options p
          = createOverlay message (optionsGiven opts) p) as ->
    by (destruct Hopts as [[-> ->]| ->]; reflexivity).
  unfold createOverlay.
  set (p1 := removeOverlay p) in *. clearbody p1.
  split; [reflexivity|].
  destruct (given (countdown opts)) eqn:Hgiven.
  - destruct (startCountdown_fields (default 0 (countdown opts)) p1 Hc Ha)
      as (_ & Hb' & _ & Hc' & Ha' & _).
    cbv zeta in Hb', Hc', Ha'.
    set (p2 := startCountdown (default 0 (countdown opts)) p1) in *.
    clearbody p2. eexists. eexists. simpl. rewrite Hb', Hb, Hc', Ha', Hnt.
    repeat split; try reflexivity; discriminate.
  - eexists. eexists. simpl. rewrite Hb, Hc, Ha.
    repeat split; try reflexivity; discriminate.
Qed.

(** What a [createOverlay] called with [null] for its options leaves. *)
Lemma createOverlay_null message p :
  tidy p ->
  let r := createOverlay message optionsNull p in
  r.1 = Threw /\
  bodyOverlays r.2 = [] /\ activeIntervals r.2 = ∅ /\
  countdownInterval r.2 = None /\
  overlayElement r.2 = Some (mkOverlay (created p) None) /\
  (is_Some (overlayElement p) -> bodyOverflow r.2 = "") /\
  (overlayElement p = None -> bodyOverflow r.2 = bodyOverflow p).
Proof.
  intros Htidy.
  destruct (removeOverlay_clean p Htidy)
    as (_ & Hc & Hb & Ha & Hov & Hov' & _ & _ & _ & _ & Hcr).
  cbv zeta in *. unfold createOverlay. simpl. rewrite Hcr.
  repeat split; assumption.
Qed.

Lemma tidy_createOverlay message options p :
  tidy p -> tidy (createOverlay message options p).2.
Proof.
  intros Htidy. destruct options as [| |opts].
  - destruct (createOverlay_shown message optionsUndefined noOptions p Htidy)
      as (_ & o & c & Hb & Ho & _ & _ & _ & Hhid & Hno & _);
      [left; split; reflexivity|].
    cbv zeta in *. destruct (Hno eq_refl) as (_ & Ha & _).
    split; [right; rewrite Hb, Ho; reflexivity|]. split; [intros _; exact Hhid|].
    intros k. rewrite Ha. set_solver.
  - destruct (createOverlay_null message p Htidy) as (_ & Hb & Ha & _).
    cbv zeta in *. split; [left; exact Hb|]. split.
    + rewrite Hb. intros H. contradiction.
    + intros k. rewrite Ha. set_solver.
  - destruct (createOverlay_shown message (optionsGiven opts) opts p Htidy)
      as (_ & o & c & Hb & Ho & _ & _ & _ & Hhid & Hno & Hyes); [right; reflexivity|].
    cbv zeta in *.
    split; [right; rewrite Hb, Ho; reflexivity|]. split; [intros _; exact Hhid|].
    intros k. destruct (given (countdown opts)).
    + destruct (Hyes eq_refl) as (_ & -> & ->). intros Hk. f_equal. set_solver.
    + destruct (Hno eq_refl) as (_ & -> & _). set_solver.
Qed.

Lemma listener_showOverlay message options p :
  (listener (showOverlay message options) p).1 = (createOverlay message options p).2.
Proof. simpl. destruct (createOverlay message options p) as [[] q]; reflexivity. Qed.

Lemma tidy_initial overflow : tidy (initialPage overflow).
Proof.
  split; [left; reflexivity|]. split; simpl; [intros H; contradiction | set_solver].
Qed.

Lemma tidy_removeAndReload p : tidy p -> tidy (removeAndReload p).
Proof.
  intros Htidy. destruct (tidy_removeOverlay p Htidy) as (Hb & Ho & Ha).
  repeat split; assumption.
Qed.

Lemma tidy_step e p : tidy p -> tidy (step e p).
Proof.
  intros Htidy. destruct e as [[m o| | |]|k|].
  - unfold step. rewrite listener_showOverlay. apply tidy_createOverlay. exact Htidy.
  - apply tidy_removeOverlay. exact Htidy.
  - exact Htidy.
  - exact Htidy.
  - simpl. unfold intervalFires. case_bool_decide; [|exact Htidy].
    apply tidy_updateCountdown. exact Htidy.
  - simpl. unfold reloadTimeoutFires. destruct (pendingReloads p); [exact Htidy|].
    apply tidy_removeAndReload. destruct Htidy as (Hb & Ho & Ha).
    repeat split; assumption.
Qed.

Lemma tidy_run events : forall p, tidy p -> tidy (run events p).
Proof.
  induction events as [|e events IH]; intros p Htidy; [exact Htidy|].
  apply IH. apply tidy_step. exact Htidy.
Qed.

(** As long as no [showOverlay] message carries [null] for its options, the
    overlay the script tracks is the one attached. *)
Lemma attached_step e p :
  (forall m, e <> Received (showOverlay m optionsNull)) ->
  tidy p -> bodyOverlays p = option_list (overlayElement p) ->
  bodyOverlays (step e p) = option_list (overlayElement (step e p)).
Proof.
  intros Hne Htidy Hatt. destruct e as [[m o| | |]|k|].
  - unfold step. rewrite listener_showOverlay. destruct o as [| |opts].
    + destruct (createOverlay_shown m optionsUndefined noOptions p Htidy)
        as (_ & o & c & Hb & Ho & _); [left; split; reflexivity|].
      cbv zeta in *. rewrite Hb, Ho. reflexivity.
    + exfalso. exact (Hne m eq_refl).
    + destruct (createOverlay_shown m (optionsGiven opts) opts p Htidy)
        as (_ & o & c & Hb & Ho & _); [right; reflexivity|].
      cbv zeta in *. rewrite Hb, Ho. reflexivity.
  - destruct (removeOverlay_clean p Htidy) as (Ho & _ & Hb & _).
    cbv zeta in *. simpl. rewrite Hb, Ho. reflexivity.
  - exact Hatt.
  - exact Hatt.
  - simpl. unfold intervalFires. case_bool_decide; [|exact Hatt].
    destruct (updateCountdown_frame k p) as (Ho & _ & Hb & _).
    cbv zeta in *. rewrite Hb, Ho. exact Hatt.
  - simpl. unfold reloadTimeoutFires. destruct (pendingReloads p); [exact Hatt|].
    set (q := mkPage _ _ _ _ _ _ _ _ _ _).
    assert (tidy q) as Hq
      by (destruct Htidy as (? & ? & ?); repeat split; assumption).
    destruct (removeOverlay_clean q Hq) as (Ho & _ & Hb & _).
    cbv zeta in *. unfold removeAndReload. simpl. rewrite Hb, Ho. reflexivity.
Qed.

Lemma attached_run events : forall p,
  Forall (fun e => forall m, e <> Received (showOverlay m optionsNull)) events ->
  tidy p -> bodyOverlays p = option_list (overlayElement p) ->
  bodyOverlays (run events p) = option_list (overlayElement (run events p)).
Proof.
  induction events as [|e events IH]; intros p Hall Htidy Hatt; [exact Hatt|].
  inversion Hall as [|? ? He Hrest]; subst.
  apply IH; [exact Hrest|apply tidy_step; exact Htidy|].
  apply attached_step; assumption.
Qed.

End ContentFacts.

(** X20. One overlay, one timer. However many [showOverlay] and
    [removeOverlay] messages arrive, with whatever options, and however the
    timers fire in between, the page never holds more than one overlay, and
    none but the one the script tracks; never runs more than one countdown
    interval, the one it can still clear; and has scrolling switched off
    whenever an overlay is shown. [checkOverlay] answers [true] whenever an
    overlay is on the page; as long as no [showOverlay] message carried
    [null] for its options, the script tracks an overlay exactly when one is
    attached, and [checkOverlay] answers whether an overlay is on the
    page. *)
Theorem page_has_one_overlay_one_timer overflow events :
  let p := Content.run events (Content.initialPage overflow) in
  (forall o, o ∈ Content.bodyOverlays p -> Content.overlayElement p = Some o) /\
  (length (Content.bodyOverlays p) <= 1)%nat /\
  (forall k, k ∈ Content.activeIntervals p -> Content.countdownInterval p = Some k) /\
  (size (Content.activeIntervals p) <= 1)%nat /\
  (Content.bodyOverlays p <> [] -> Content.bodyOverflow p = "hidden") /\
  (Content.bodyOverlays p <> [] ->
   (Content.listener Content.checkOverlay p).2 = Some (Content.HasOverlay true)) /\
  (Forall (fun e => forall m,
             e <> Content.Received (Content.showOverlay m Content.optionsNull))
          events ->
   Content.bodyOverlays p = option_list (Content.overlayElement p) /\
   (Content.listener Content.checkOverlay p).2
     = Some (Content.HasOverlay (bool_decide (Content.bodyOverlays p <> [])))).
Proof.
  intros p.
  pose proof (ContentFacts.tidy_initial overflow) as Hinit.
  destruct (ContentFacts.tidy_run events _ Hinit) as (Hb & Ho & Ha).
  pose proof (fun Hall => ContentFacts.attached_run events _ Hall Hinit eq_refl)
    as Hatt.
  fold p in Hb, Ho, Ha, Hatt. clearbody p.
  split.
  { intros o Hin. destruct Hb as [Hb|Hb]; rewrite Hb in Hin.
    - apply elem_of_nil in Hin. contradiction.
    - destruct (Content.overlayElement p); simpl in Hin.
      + apply list_elem_of_singleton in Hin as ->. reflexivity.
      + apply elem_of_nil in Hin. contradiction. }
  split.
  { destruct Hb as [Hb|Hb]; rewrite Hb; [simpl; lia|].
    destruct (Content.overlayElement p); simpl; lia. }
  split; [exact Ha|]. split.
  { destruct (Content.countdownInterval p) as [id|] eqn:Hci.
    - transitivity (size ({[id]} : gset nat)); [|rewrite size_singleton; lia].
      apply subseteq_size. intros k Hk. specialize (Ha k Hk).
      injection Ha as ->. set_solver.
    - replace (Content.activeIntervals p) with (∅ : gset nat);
        [rewrite size_empty; lia|].
      symmetry. apply set_eq. intros k. split; [|set_solver].
      intros Hk. specialize (Ha k Hk). discriminate. }
  split; [exact Ho|]. split.
  { intros Hne. simpl. destruct Hb as [Hb|Hb]; [contradiction|].
    rewrite Hb in Hne. destruct (Content.overlayElement p); [|contradiction].
    rewrite bool_decide_eq_true_2 by eauto. reflexivity. }
  intros Hall. specialize (Hatt Hall). split; [exact Hatt|].
  simpl. apply f_equal, f_equal, bool_decide_ext. rewrite Hatt.
  destruct (Content.overlayElement p); simpl; split.
  - discriminate.
  - eauto.
  - intros [? [=]].
  - intros H. contradiction.
Qed.

(** [showOverlay] with [null] for the options on a fresh page: nothing is
    attached and scrolling is as it was, but the script tracks an empty
    element and [checkOverlay] answers [true]. *)
Example null_options_leave_overlay_unattached :
  let p := Content.run
             [Content.Received (Content.showOverlay "Stay focused" Content.optionsNull)]
             (Content.initialPage "auto") in
  Content.bodyOverlays p = [] /\ Content.bodyOverflow p = "auto" /\
  Content.overlayElement p
    = Some (Content.mkOverlay 0 None) /\
  (Content.listener Content.checkOverlay p).2 = Some (Content.HasOverlay true).
Proof. repeat split; reflexivity. Qed.

(** X21. Removing the overlay leaves nothing behind. In any page the script
    can get into, after a [removeOverlay] message no overlay is attached, no
    interval is running, both variables are [null], and scrolling is back on
    if an overlay had been shown. *)
Theorem removeOverlay_leaves_nothing overflow events :
  let p := Content.run events (Content.initialPage overflow) in
  let r := Content.listener Content.removeOverlayRequest p in
  r.2 = Some Content.Success /\
  Content.bodyOverlays r.1 = [] /\
  Content.activeIntervals r.1 = ∅ /\
  Content.overlayElement r.1 = None /\
  Content.countdownInterval r.1 = None /\
  (is_Some (Content.overlayElement p) -> Content.bodyOverflow r.1 = "").
Proof.
  intros p r.
  pose proof (ContentFacts.tidy_run events _ (ContentFacts.tidy_initial overflow))
    as Htidy. fold p in Htidy.
  destruct (ContentFacts.removeOverlay_clean p Htidy)
    as (Ho & Hc & Hb & Ha & Hov & _).
  cbv zeta in Ho, Hc, Hb, Ha, Hov. unfold r. simpl.
  repeat split; assumption.
Qed.

Module CountdownFacts.
Import Content.




End CountdownFacts.



(** X23. Override from the overlay. When the user confirms and the page's
    address parses, the worker clears the domain's window and the target's
    cache entry and sends the report, and the page, on the worker's answer,
    removes the overlay, stops its countdown and reloads; the outcome of the
    report plays no part. When the user declines nothing changes on either
    side, and when the worker cannot parse the address the page keeps its
    overlay. *)
Theorem override_from_overlay parseURL href now net st overflow events u :
  parseURL href = Some u ->
  let p := Content.run events (Content.initialPage overflow) in
  let r := handleOverride parseURL true href now net st p in
  activeDelays r.1 !! hostname u = None /\
  blockCache r.1 !! href = None /\
  requests r.1 = (requests st ++ [OverrideRequest href now])%list /\
  Content.bodyOverlays r.2 = [] /\
  Content.activeIntervals r.2 = ∅ /\
  Content.reloads r.2 = S (Content.reloads p) /\
  handleOverride parseURL false href now net st p = (st, p) /\
  (forall other, parseURL other = None ->
     handleOverride parseURL true other now net st p = (st, p)).
Proof.
  intros Hu p r.
  pose proof (ContentFacts.tidy_run events _ (ContentFacts.tidy_initial overflow))
    as Htidy. fold p in Htidy. clearbody p.
  assert (r = (logOverride href now net
                 (set_blockCache (delete href)
                    (set_activeDelays (delete (hostname u)) st)),
               Content.removeAndReload p)) as ->
    by (unfold r, handleOverride; rewrite (override_state parseURL href now net st u Hu);
        reflexivity).
  destruct (logOverride_fields href now net
              (set_blockCache (delete href)
                 (set_activeDelays (delete (hostname u)) st)))
    as (Hreq & Hcache & Hdel & _).
  cbv zeta in Hreq, Hcache, Hdel.
  destruct (ContentFacts.removeOverlay_clean p Htidy)
    as (_ & _ & Hb & Ha & _ & _ & _ & _ & _ & Hr & _).
  cbv zeta in Hb, Ha, Hr. simpl.
  split; [rewrite Hdel; apply lookup_delete_eq|].
  split; [rewrite Hcache; apply lookup_delete_eq|].
  split; [exact Hreq|]. split; [exact Hb|]. split; [exact Ha|].
  split; [rewrite Hr; reflexivity|]. split; [reflexivity|].
  intros other Hother. unfold handleOverride, onMessage. rewrite Hother.
  reflexivity.
Qed.

Lemma override_from_overlay_witness :
  simpleURL reddit = Some redditURL /\
  let p := (Content.createOverlay "Stay focused"
              (Content.optionsGiven (Content.mkOptions (Some 10) None true))
              (Content.initialPage "")).2 in
  let r := handleOverride simpleURL true reddit 7000 FetchRejected delayed10 p in
  activeDelays r.1 !! "reddit.com" = None /\ Content.bodyOverlays r.2 = [].
Proof.
  split; [reflexivity|].
  destruct (override_from_overlay simpleURL reddit 7000 FetchRejected delayed10 ""
              [Content.Received (Content.showOverlay "Stay focused"
                 (Content.optionsGiven (Content.mkOptions (Some 10) None true)))]
              redditURL eq_refl) as (Hwin & _ & _ & Hb & _).
  split; [exact Hwin | exact Hb].
Defined.

(** ** The popup *)

Lemma two_digit_minutes r :
  0 <= r < 60 ->
  String.length (padStart2 (pretty r)) = 2%nat /\
  (r < 10 -> padStart2 (pretty r) = "0" +:+ pretty r) /\
  (10 <= r -> padStart2 (pretty r) = pretty r).
Proof.
  intros Hr.
  assert (forallb
            (fun r =>
               Nat.eqb (String.length (padStart2 (pretty r))) 2
               && (if Z.ltb r 10
                   then String.eqb (padStart2 (pretty r)) ("0" +:+ pretty r)
                   else String.eqb (padStart2 (pretty r)) (pretty r)))
            (seqZ 0 60) = true) as Hall by (vm_compute; reflexivity).
  rewrite forallb_forall in Hall.
  assert (In r (seqZ 0 60)) as Hin
    by (apply list_elem_of_In, elem_of_seqZ; lia).
  specialize (Hall r Hin). apply andb_true_iff in Hall as [Hlen Hpad].
  apply Nat.eqb_eq in Hlen. split; [exact Hlen|].
  destruct (Z.ltb_spec r 10); apply String.eqb_eq in Hpad; split;
    intros; (exact Hpad || lia).
Qed.

(** X24. [formatDuration] on a whole number of minutes within
    [Number.MAX_SAFE_INTEGER] either way, where the source's arithmetic on
    doubles is exact. Under an hour it gives the minutes followed by [ min];
    from an hour on it gives the hours, a colon, and the minutes past the
    hour in exactly two characters, with a leading zero below ten; hours and
    minutes add up to the input. A negative input never takes the hour form:
    only its remainder is shown. *)
Theorem formatDuration_hours_and_minutes minutes :
  - MAX_SAFE_INTEGER <= minutes <= MAX_SAFE_INTEGER ->
  (0 <= minutes < 60 -> formatDuration minutes = Some (pretty minutes +:+ " min")) /\
  (60 <= minutes ->
     let h := minutes / 60 in
     let m := minutes `mod` 60 in
     60 * h + m = minutes /\ 0 < h /\ 0 <= m < 60 /\
     formatDuration minutes = Some (pretty h +:+ ":" +:+ padStart2 (pretty m)) /\
     String.length (padStart2 (pretty m)) = 2%nat /\
     (m < 10 -> padStart2 (pretty m) = "0" +:+ pretty m) /\
     (10 <= m -> padStart2 (pretty m) = pretty m)) /\
  (minutes < 0 ->
     formatDuration minutes = Some (pretty (Z.rem minutes 60) +:+ " min")).
Proof.
  intros Hsafe. unfold formatDuration.
  rewrite bool_decide_eq_true_2 by exact Hsafe. cbv zeta. split; [|split].
  - intros Hm. rewrite Z.div_small by lia.
    rewrite bool_decide_eq_false_2 by lia.
    rewrite Z.rem_small by lia. reflexivity.
  - intros Hm.
    pose proof (Z.div_mod minutes 60) as Hdm.
    pose proof (Z.mod_pos_bound minutes 60) as Hmod.
    assert (0 < minutes / 60) as Hh by (apply Z.div_str_pos; lia).
    rewrite bool_decide_eq_true_2 by exact Hh.
    rewrite Z.rem_mod_nonneg by lia.
    destruct (two_digit_minutes (minutes `mod` 60)) as (Hlen & Hlow & Hhigh); [lia|].
    repeat split; try lia; assumption.
  - intros Hm.
    assert (minutes / 60 < 0) as Hh by (apply Z.div_lt_upper_bound; lia).
    rewrite bool_decide_eq_false_2 by lia. reflexivity.
Qed.

Lemma formatDuration_hours_and_minutes_witness :
  - MAX_SAFE_INTEGER <= 125 <= MAX_SAFE_INTEGER /\
  formatDuration 125 = Some "2:05".
Proof.
  assert (- MAX_SAFE_INTEGER <= 125 <= MAX_SAFE_INTEGER) as Hsafe
    by (unfold MAX_SAFE_INTEGER; lia).
  split; [exact Hsafe|].
  destruct (formatDuration_hours_and_minutes 125 Hsafe) as (_ & Hhours & _).
  destruct Hhours as (_ & _ & _ & Hfmt & _); [lia|].
  rewrite Hfmt. vm_compute. reflexivity.
Defined.

(** X25. Showing replaces. After a [showOverlay] message with options that
    are an object or missing, whatever was on the page before, the message is
    answered, the body holds exactly one overlay, the new one, with the
    message sent, scrolling is off, and the override button is there exactly
    when [allowOverride] is set. A countdown element exists, with its
    interval the only one running, exactly when [countdown] is a non-zero
    number; with [countdown] zero or missing, or with no options at all,
    there is no countdown and no interval runs. With [null] for the options
    the listener throws before it answers: what was on the page is removed,
    nothing is attached and no interval runs, but the script tracks a new
    element, still empty, and [checkOverlay] answers [true]. *)
Theorem showOverlay_replaces overflow events message options :
  let p := Content.run events (Content.initialPage overflow) in
  let r := Content.listener (Content.showOverlay message options) p in
  (forall opts,
     options = Content.optionsUndefined /\ opts = Content.noOptions \/
     options = Content.optionsGiven opts ->
     r.2 = Some Content.Success /\
     exists o c,
       Content.bodyOverlays r.1 = [o] /\ Content.overlayElement r.1 = Some o /\
       Content.content o = Some c /\
       Content.message c = message /\
       Content.overrideBtn c = Content.allowOverride opts /\
       Content.bodyOverflow r.1 = "hidden" /\
       (Content.given (Content.countdown opts) = false ->
          Content.countdownEl c = None /\ Content.activeIntervals r.1 = ∅ /\
          Content.countdownInterval r.1 = None) /\
       (Content.given (Content.countdown opts) = true ->
          Content.countdownEl c = Some (Content.nextTimer p) /\
          Content.activeIntervals r.1 = {[Content.nextTimer p]} /\
          Content.countdownInterval r.1 = Some (Content.nextTimer p))) /\
  (options = Content.optionsNull ->
     r.2 = None /\
     Content.bodyOverlays r.1 = [] /\ Content.activeIntervals r.1 = ∅ /\
     Content.countdownInterval r.1 = None /\
     exists o, Content.overlayElement r.1 = Some o /\ Content.content o = None /\
               (Content.listener Content.checkOverlay r.1).2
                 = Some (Content.HasOverlay true)).
Proof.
  intros p r.
  pose proof (ContentFacts.tidy_run events _ (ContentFacts.tidy_initial overflow))
    as Htidy. fold p in Htidy. clearbody p.
  unfold r. simpl. split.
  - intros opts Hopts.
    destruct (ContentFacts.createOverlay_shown message options opts p Htidy Hopts)
      as (Hret & Hshown). cbv zeta in Hret, Hshown.
    destruct (Content.createOverlay message options p) as [c q].
    simpl in Hret, Hshown. subst c. simpl. split; [reflexivity|exact Hshown].
  - intros ->.
    destruct (ContentFacts.createOverlay_null message p Htidy)
      as (Hthrew & Hb & Ha & Hc & Ho & _). cbv zeta in Hthrew, Hb, Ha, Hc, Ho.
    destruct (Content.createOverlay message Content.optionsNull p) as [c q].
    simpl in Hthrew, Hb, Ha, Hc, Ho. subst c. simpl.
    repeat (split; [assumption || reflexivity|]).
    eexists. split; [exact Ho|]. split; [reflexivity|].
    simpl. rewrite Ho. reflexivity.
Qed.

(** ** The event log under records that do not overlap *)

(** X26. As long as each record completes, read and callback, before the
    next one is issued, the log behaves as a bounded queue: starting from a
    stored log within the bound (in particular from the empty log of a fresh
    install), after any sequence of such records the log holds at most 100
    entries, and it is exactly the most recent 100 of everything appended, in
    order of appending; so after 101 entries in all the first one is gone and
    the other 100 remain in order. *)
Theorem event_log_keeps_last_100
    (calls : list (string * option string * Z)) (st : State) :
  (length (storedEvents st) <= 100)%nat ->
  let appended := (storedEvents st ++ (eventOf <$> calls))%list in
  let log := storedEvents (recordAll calls st) in
  (length log <= 100)%nat /\
  log = drop (length appended - 100) appended /\
  (length appended = 101%nat -> log = drop 1 appended).
Proof.
  intros Hlen appended log.
  assert (log = drop (length appended - 100) appended) as Hlog
    by (apply recordAll_stored; exact Hlen).
  split; [|split].
  - rewrite Hlog, length_drop. lia.
  - exact Hlog.
  - intros H101. rewrite Hlog, H101. reflexivity.
Qed.

Lemma event_log_keeps_last_100_witness :
  (length (storedEvents emptyProfile) <= 100)%nat /\
  (length (storedEvents (recordAll calls101 emptyProfile)) <= 100)%nat /\
  storedEvents (recordAll calls101 emptyProfile) = eventOf <$> drop 1 calls101.
Proof.
  assert (length (storedEvents emptyProfile) <= 100)%nat as H by (simpl; lia).
  split; [exact H|].
  destruct (event_log_keeps_last_100 calls101 emptyProfile H) as (Hb & _ & H101).
  split; [exact Hb|].
  rewrite H101 by reflexivity. reflexivity.
Defined.

Lemma router_issues_one_record_witness :
  (action delay10 = Some "delay" -> is_Some (simpleURL reddit)) /\
  redirectEncodes simpleEncode reddit delay10 /\
  let r := handleBlockedNavigation simpleURL simpleEncode 7 reddit delay10 6 installed in
  r.1 = Returned /\
  pendingRecords r.2 = [mkPendingRecord (mkBlockEvent reddit (Some "delay") 6) None] /\
  storedEvents (storageCallback 0 (storageRead 0 r.2))
    = [mkBlockEvent reddit (Some "delay") 6].
Proof.
  assert (action delay10 = Some "delay" -> is_Some (simpleURL reddit)) as H
    by (intros _; exists redditURL; reflexivity).
  assert (redirectEncodes simpleEncode reddit delay10) as Henc
    by (intros m [= <-]; split; eexists; reflexivity).
  split; [exact H|]. split; [exact Henc|].
  destruct (router_issues_one_record simpleURL simpleEncode 7 reddit delay10 6
              installed H Henc) as (Hret & Hp & _ & Hone & _).
  split; [exact Hret|]. split; [exact Hp|]. exact Hone.
Defined.

(** An action outside the three known ones: the record is issued, no tab is
    redirected. *)
Example router_records_unknown_action :
  let r := handleBlockedNavigation simpleURL simpleEncode 7 reddit warnOnly 6 installed in
  r.1 = Returned /\
  pendingRecords r.2 = [mkPendingRecord (mkBlockEvent reddit (Some "warn") 6) None] /\
  tabUpdates r.2 = [].
Proof. repeat split; reflexivity. Qed.
